(** * github-gantt: the issue synchronisation of [index.js]

    A shallow embedding of [processIssues], [getTaskChartData] and the
    [/getIssueURL] route of [src/index.js], with the part of the Realm,
    Express and JavaScript string APIs that these functions call.

    - JavaScript strings are [string]s of 8-bit code units.
    - The Realm table [Task] (primary key [id]) is a [gmap Z Task.t].
    - A [Date] is its time value, a [Z]; an invalid date is [None].
    - The paginated feed is the inductive [Issues]; a run of [processIssues]
      threads the Realm and a log of what it did. *)

From Stdlib Require Import ZArith String Ascii List Sorted Permutation Bool Lia.
From Stdlib Require Import Floats.PrimFloat.
From stdpp Require Import gmap strings list fin_maps.

Local Open Scope string_scope.
Local Open Scope Z_scope.
Local Open Scope list_scope.

(** ** JavaScript strings *)

Module JsString.

(** [s.indexOf(searchString)]: position of the first occurrence, [-1]
    when there is none. *)
Definition indexOf (s searchString : string) : Z :=
  match String.index 0 searchString s with
  | Some n => Z.of_nat n
  | None => -1
  end.

(** [s.replace(pattern, replacement)] for a string pattern and a
    replacement without [$] patterns: the first occurrence only. *)
Definition replace (s pattern replacement : string) : string :=
  match String.index 0 pattern s with
  | Some n =>
      String.substring 0 n s +:+ replacement +:+
      String.substring (n + String.length pattern)
                       (String.length s - (n + String.length pattern)) s
  | None => s
  end.

(** Lines after a separator was matched: [skip] code units of the
    separator remain to be passed over. The head of the result is the
    line under construction. *)
Fixpoint split_from (separator : string) (skip : nat) (s : string) : list string :=
  match s with
  | EmptyString => [EmptyString]
  | String c s' =>
      match skip with
      | S k => split_from separator k s'
      | O =>
          if String.prefix separator s
          then EmptyString :: split_from separator (String.length separator - 1) s'
          else match split_from separator 0 s' with
               | line :: lines => String c line :: lines
               | [] => [String c EmptyString]
               end
      end
  end.

(** [s.split(separator)]; the empty separator cuts between code units. *)
Definition split (s separator : string) : list string :=
  match separator with
  | EmptyString => List.map (fun c => String c EmptyString) (list_ascii_of_string s)
  | _ => split_from separator 0 s
  end.

(** White space and line terminators below code unit 256. *)
Definition isWhiteSpace (c : ascii) : bool :=
  let n := nat_of_ascii c in
  (Nat.leb 9 n && Nat.leb n 13) || Nat.eqb n 32 || Nat.eqb n 160.

Fixpoint trimStart (s : string) : string :=
  match s with
  | EmptyString => EmptyString
  | String c s' => if isWhiteSpace c then trimStart s' else s
  end.

Fixpoint trimEnd (s : string) : string :=
  match s with
  | EmptyString => EmptyString
  | String c s' =>
      match trimEnd s' with
      | EmptyString => if isWhiteSpace c then EmptyString else String c EmptyString
      | rest => String c rest
      end
  end.

Definition trim (s : string) : string := trimEnd (trimStart s).

(** [toUpperCase] on the letters a-z (label colours are hex digits). *)
Definition upper (c : ascii) : ascii :=
  let n := nat_of_ascii c in
  if Nat.leb 97 n && Nat.leb n 122 then ascii_of_nat (n - 32) else c.

Fixpoint toUpperCase (s : string) : string :=
  match s with
  | EmptyString => EmptyString
  | String c s' => String (upper c) (toUpperCase s')
  end.

End JsString.

(** [!n] for a number [n] that is not NaN. *)
Definition js_not (n : Z) : bool := n =? 0.

(** ** Data model *)

(** A label of a GitHub issue. [color] is [None] when it is not a string. *)
Module Label.
Record t := mk { name : string; color : option string }.
End Label.

(** An item of a page of the feed. Optional text fields are [None] when
    null; [labels] is [None] when it is not an array. *)
Module Issue.
Record t := mk {
  id : Z;
  title : option string;
  body : option string;
  url : option string;
  htmlUrl : option string;
  number : Z;
  state : string;
  createdAt : Z;
  labels : option (list Label.t)
}.
End Issue.

(** [TaskSchema]: the eighteen properties of a stored task. *)
Module Task.
Record t := mk {
  text : string;
  start_date : Z;
  duration : Z;
  id : Z;
  body : string;
  url : string;
  html_url : string;
  number : Z;
  state : string;
  isDeleted : bool;
  type : option string;
  parent : option Z;
  level : option Z;
  progress : option float;
  open : option bool;
  end_date : option Z;
  color : option string;
  label : option string
}.

Definition set_isDeleted (b : bool) (task : t) : t :=
  mk (text task) (start_date task) (duration task) (id task) (body task)
     (url task) (html_url task) (number task) (state task) b
     (type task) (parent task) (level task) (progress task) (open task)
     (end_date task) (color task) (label task).
End Task.

(** [config/config.js]: the four keyword prefixes. *)
Record Config := {
  START_DATE_STRING : string;
  DUE_DATE_STRING : string;
  LABEL_STRING : string;
  PROGRESS_STRING : string
}.

(** [utilities.js] on the embedding's types. *)
Module utilities.
(** Modelled from the spec: [utilities.isArray], missing from the
    sources; a value that is not an array is [None]. *)
Definition isArray {A} (v : option (list A)) : bool :=
  match v with Some _ => true | None => false end.

(** Modelled from the spec: [utilities.isString], missing from the
    sources; a value that is not a string is [None]. *)
Definition isString (v : option string) : bool :=
  match v with Some _ => true | None => false end.

(** Modelled from the spec: [utilities.sanitizeStringNonNull], missing
    from the sources: null becomes the empty string. *)
Definition sanitizeStringNonNull (v : option string) : string :=
  match v with Some s => s | None => EmptyString end.
End utilities.

(** ** The Realm store *)

(** A thrown JavaScript exception. *)
Inductive JsError := TypeError.

(** How a block of JavaScript ends: normally, or by throwing. *)
Inductive Completion (A : Type) :=
| Normal (value : A)
| Throw (e : JsError).
Arguments Normal {A} value.
Arguments Throw {A} e.

(** The object literal that [processIssues] passes to [realm.create]: the
    fourteen properties it names. *)
Module TaskValues.
Record t := mk {
  text : string;
  start_date : Z;
  duration : Z;
  id : Z;
  body : string;
  url : string;
  html_url : string;
  number : Z;
  state : string;
  isDeleted : bool;
  end_date : option Z;
  label : option string;
  color : option string;
  progress : option float
}.
End TaskValues.

Module Realm.

(** The table of [Task] objects, by primary key. *)
Abbreviation t := (gmap Z Task.t).

(** [realm.objects('Task')] *)
Definition objects (realm : t) : list Task.t :=
  List.map snd (map_to_list realm).

(** [realm.objectForPrimaryKey('Task', key)]; [None] is [undefined]. *)
Definition objectForPrimaryKey (realm : t) (key : Z) : option Task.t :=
  realm !! key.

(** A new object: a property the literal does not name is optional in
    the schema and starts as null. *)
Definition fresh (v : TaskValues.t) : Task.t :=
  Task.mk (TaskValues.text v) (TaskValues.start_date v) (TaskValues.duration v)
          (TaskValues.id v) (TaskValues.body v) (TaskValues.url v)
          (TaskValues.html_url v) (TaskValues.number v) (TaskValues.state v)
          (TaskValues.isDeleted v) None None None (TaskValues.progress v) None
          (TaskValues.end_date v) (TaskValues.color v) (TaskValues.label v).

(** An update: the named properties are assigned, the others keep their
    value. *)
Definition assign (v : TaskValues.t) (old : Task.t) : Task.t :=
  Task.mk (TaskValues.text v) (TaskValues.start_date v) (TaskValues.duration v)
          (TaskValues.id v) (TaskValues.body v) (TaskValues.url v)
          (TaskValues.html_url v) (TaskValues.number v) (TaskValues.state v)
          (TaskValues.isDeleted v)
          (Task.type old) (Task.parent old) (Task.level old)
          (TaskValues.progress v) (Task.open old)
          (TaskValues.end_date v) (TaskValues.color v) (TaskValues.label v).

(** [realm.create('Task', v, true)]: with the update flag, the object
    with the primary key of [v] is updated when there is one, and
    created otherwise. *)
Definition create (v : TaskValues.t) (realm : t) : t :=
  match objectForPrimaryKey realm (TaskValues.id v) with
  | Some old => <[TaskValues.id v := assign v old]> realm
  | None => <[TaskValues.id v := fresh v]> realm
  end.

(** The invariant of the table: the primary key of an object is its
    [id]. *)
Definition keyed (realm : t) : Prop :=
  forall key task, realm !! key = Some task -> Task.id task = key.

(** A table in which the four properties that [processIssues] does not
    name are null, as in every table that only [processIssues] wrote. *)
Definition plain (realm : t) : Prop :=
  forall key task,
    realm !! key = Some task ->
    Task.type task = None /\ Task.parent task = None
    /\ Task.level task = None /\ Task.open task = None.

(** [realm.write(callback)]: a transaction. When the callback throws,
    the transaction is cancelled and the exception goes on to the
    caller; the Realm is as before. *)
Definition write (callback : t -> Completion t) (realm : t) : Completion unit * t :=
  match callback realm with
  | Normal realm' => (Normal tt, realm')
  | Throw e => (Throw e, realm)
  end.

(** [results.filtered(...)] for a predicate on tasks. *)
Definition filtered (p : Task.t -> bool) (results : list Task.t) : list Task.t :=
  List.filter p results.

(** [results.sorted(...)]: a stable sort, so that sorting a sorted
    collection keeps the first order among equal keys, as the chain
    [sorted('start_date', true).sorted('label')] needs. [le] compares the
    sort key of two tasks. *)
Fixpoint insert_sorted {A} (le : A -> A -> bool) (x : A) (l : list A) : list A :=
  match l with
  | [] => [x]
  | y :: l' => if le x y then x :: l else y :: insert_sorted le x l'
  end.

Fixpoint sorted {A} (le : A -> A -> bool) (results : list A) : list A :=
  match results with
  | [] => []
  | x :: l => insert_sorted le x (sorted le l)
  end.

(** Order of an optional string property: null first, then by code
    units. *)
Definition le_option_string (a b : option string) : bool :=
  match a, b with
  | None, _ => true
  | Some _, None => false
  | Some x, Some y => String.leb x y
  end.

(** Sort key [start_date]; [reverse] is the second argument of
    [sorted]. *)
Definition by_start_date (reverse : bool) (a b : Task.t) : bool :=
  if reverse then Task.start_date b <=? Task.start_date a
  else Task.start_date a <=? Task.start_date b.

(** Sort key [label]. *)
Definition by_label (a b : Task.t) : bool :=
  le_option_string (Task.label a) (Task.label b).

End Realm.

(** ** The feed *)

(** A page of issues as octokat returns it, with what fetching its next
    page gives. *)
Inductive Issues :=
| LastPage (items : list Issue.t)
    (** [nextPageUrl] is not a string *)
| MorePages (items : list Issue.t) (nextPageUrl : string) (moreIssues : Issues)
    (** [nextPage.fetch()] is fulfilled with [moreIssues] *)
| FetchFails (items : list Issue.t) (nextPageUrl : string).
    (** [nextPage.fetch()] is rejected *)

Definition items (issues : Issues) : list Issue.t :=
  match issues with
  | LastPage l | MorePages l _ _ | FetchFails l _ => l
  end.

(** What a run did, in order. *)
Inductive Event :=
| Upserted (id : Z)              (** [realm.write] with [realm.create] committed *)
| Fetched (url : string)         (** the next page arrived *)
| FetchRejected (url : string)   (** the next page did not arrive *)
| Pruned (deletedIds : list Z)   (** the write that marks the deleted issues committed *)
| Raised (e : JsError)           (** an exception left [processIssues] *)
| CompletionCalled.              (** [completion()] *)

(** [array.indexOf(el)] on an array of numbers. *)
Fixpoint Array_indexOf (array : list Z) (el : Z) : Z :=
  match array with
  | [] => -1
  | x :: rest =>
      if x =? el then 0
      else let i := Array_indexOf rest el in if i <? 0 then -1 else i + 1
  end.

(** ** processIssues *)

(** The variables that the loop over the lines of a body assigns. *)
Module Vars.
Record t := mk {
  startDate : Z;
  dueDate : option Z;
  label : option string;
  color : option string;
  progress : option float
}.
Definition set_startDate (d : Z) (v : t) : t :=
  mk d (dueDate v) (label v) (color v) (progress v).
Definition set_dueDate (d : option Z) (v : t) : t :=
  mk (startDate v) d (label v) (color v) (progress v).
Definition set_label (l : option string) (v : t) : t :=
  mk (startDate v) (dueDate v) l (color v) (progress v).
Definition set_color (c : option string) (v : t) : t :=
  mk (startDate v) (dueDate v) (label v) c (progress v).
Definition set_progress (p : option float) (v : t) : t :=
  mk (startDate v) (dueDate v) (label v) (color v) p.
End Vars.

(** The separator of [issue.body.split('\r\n')]. *)
Definition CRLF : string :=
  String (ascii_of_nat 13) (String (ascii_of_nat 10) EmptyString).

(** The state of a run: the Realm and what the run did so far. *)
Record Run := mkRun { realm : Realm.t; log : list Event }.

(** The write that marks the deleted issues (the callback of the second
    [realm.write]): [objectForPrimaryKey] gives [undefined] for a key
    that is not stored, and assigning [isDeleted] on it throws. *)
Fixpoint markDeleted (deletedIds : list Z) (realm : Realm.t) : Completion Realm.t :=
  match deletedIds with
  | [] => Normal realm
  | deletedId :: rest =>
      match Realm.objectForPrimaryKey realm deletedId with
      | Some task =>
          markDeleted rest (<[deletedId := Task.set_isDeleted true task]> realm)
      | None => Throw TypeError
      end
  end.

Section Sync.

(** [config] is given, and so are two functions of the JavaScript side:
    - [newDate s] is [new Date(s)] under the test [utilities.isDate]: the
      time value of the date, and [None] when the text is not a valid
      date (Modelled from the spec: [utilities.isDate] is missing from the
      sources, and a date that fails to parse is dropped);
    - [sanitizeFloat] is [utilities.sanitizeFloat], missing from the
      sources; [None] is null. *)
Variable config : Config.
Variable newDate : string -> option Z.
Variable sanitizeFloat : string -> option float.

(** The loop over [issue.labels] for one label keyword line. *)
Definition matchLabel (labelString : string) (v : Vars.t) (aLabel : Label.t) : Vars.t :=
  if String.eqb (Label.name aLabel) labelString then
    let v := Vars.set_label (Some (Label.name aLabel)) v in
    match Label.color aLabel with
    | Some c => Vars.set_color (Some ("#" +:+ JsString.toUpperCase c)) v
    | None => v
    end
  else v.

(** The body of the loop over the lines. *)
Definition scanLine (issue : Issue.t) (v : Vars.t) (line : string) : Vars.t :=
  let v :=
    if js_not (JsString.indexOf line (START_DATE_STRING config)) then
      match newDate (JsString.replace line (START_DATE_STRING config) "") with
      | Some date => Vars.set_startDate date v
      | None => v
      end
    else v in
  let v :=
    if js_not (JsString.indexOf line (DUE_DATE_STRING config)) then
      match newDate (JsString.replace line (DUE_DATE_STRING config) "") with
      | Some date => Vars.set_dueDate (Some date) v
      | None => v
      end
    else v in
  let v :=
    if js_not (JsString.indexOf line (LABEL_STRING config)) then
      let labelString := JsString.replace line (LABEL_STRING config) "" in
      if utilities.isString (Some labelString) then
        let labelString := JsString.trim labelString in
        match Issue.labels issue with
        | Some labels => fold_left (matchLabel labelString) labels v
        | None => v
        end
      else v
    else v in
  if js_not (JsString.indexOf line (PROGRESS_STRING config)) then
    Vars.set_progress
      (sanitizeFloat (JsString.replace line (PROGRESS_STRING config) "")) v
  else v.

(** The variables at the start of an issue, and after the keywords of its
    body were looked for. *)
Definition initialVars (issue : Issue.t) : Vars.t :=
  Vars.mk (Issue.createdAt issue) None None None None.

Definition findKeywords (issue : Issue.t) : Vars.t :=
  match Issue.body issue with
  | Some body =>
      fold_left (scanLine issue) (JsString.split body CRLF) (initialVars issue)
  | None => initialVars issue
  end.

(** The object given to [realm.create]. *)
Definition taskValues (issue : Issue.t) : TaskValues.t :=
  let v := findKeywords issue in
  TaskValues.mk
    (utilities.sanitizeStringNonNull (Issue.title issue))
    (Vars.startDate v)
    1
    (Issue.id issue)
    (utilities.sanitizeStringNonNull (Issue.body issue))
    (utilities.sanitizeStringNonNull (Issue.url issue))
    (utilities.sanitizeStringNonNull (Issue.htmlUrl issue))
    (Issue.number issue)
    (Issue.state issue)
    false
    (Vars.dueDate v)
    (Vars.label v)
    (Vars.color v)
    (Vars.progress v).

(** One turn of the loop over [issues.items]: the write, then the push on
    [idArray]. *)
Definition processIssue (st : Run * list Z) (issue : Issue.t) : Run * list Z :=
  let (run, idArray) := st in
  let (_, realm') :=
    Realm.write (fun r => Normal (Realm.create (taskValues issue) r)) (realm run) in
  (mkRun realm' (log run ++ [Upserted (Issue.id issue)]),
   idArray ++ [Issue.id issue]).

(** The else branch: prune the deleted issues, then call [completion]. *)
Definition prune (run : Run) (idArray : list Z) : Run :=
  let oldIds := List.map Task.id (Realm.objects (realm run)) in
  let deletedIds := List.filter (fun el => Array_indexOf idArray el <? 0) oldIds in
  match Realm.write (markDeleted deletedIds) (realm run) with
  | (Normal _, realm') => mkRun realm' (log run ++ [Pruned deletedIds; CompletionCalled])
  | (Throw e, realm') => mkRun realm' (log run ++ [Raised e])
  end.

(** [processIssues(issues, completion, idArray)]; [idArray] is [None] when
    the caller leaves it out. The test of [issues.nextPageUrl] is the
    match on the page, the callback of [then] runs when the fetch is
    fulfilled, and a rejected fetch ends the run, since no handler is
    attached to it. The call of [completion] is an event of the log. *)
Fixpoint processIssues (issues : Issues) (idArray : option (list Z)) (run : Run) : Run :=
  let idArray := if utilities.isArray idArray then default [] idArray else [] in
  let (run, idArray) := fold_left processIssue (items issues) (run, idArray) in
  match issues with
  | MorePages _ url moreIssues =>
      processIssues moreIssues (Some idArray)
                    (mkRun (realm run) (log run ++ [Fetched url]))
  | FetchFails _ url => mkRun (realm run) (log run ++ [FetchRejected url])
  | LastPage _ => prune run idArray
  end.

(** A sync run as [/refreshData] starts it: no [idArray], an empty log. *)
Definition refresh (issues : Issues) (r : Realm.t) : Run :=
  processIssues issues None (mkRun r []).

End Sync.

(** ** getTaskChartData and the routes *)

(** The predicate of [filtered('isDeleted = false AND state = "open" AND
    end_date != null')]. *)
Definition chartFilter (task : Task.t) : bool :=
  negb (Task.isDeleted task) && String.eqb (Task.state task) "open"
  && match Task.end_date task with Some _ => true | None => false end.

(** The results that [getTaskChartData] iterates over. *)
Definition chartTasks (r : Realm.t) : list Task.t :=
  Realm.sorted Realm.by_label
    (Realm.sorted (Realm.by_start_date true)
       (Realm.filtered chartFilter (Realm.objects r))).

(** A row of the chart data. *)
Module ChartRow.
Record t := mk {
  id : Z;
  text : string;
  start_date : string;
  duration : Z;
  end_date : string;
  url : string;
  progress : option float;
  color : option string
}.
End ChartRow.

Section Chart.

(** [dateFormat(date, mask)] of the dateformat package. *)
Variable dateFormat : option Z -> string -> string.

Definition formattedTask (task : Task.t) : ChartRow.t :=
  ChartRow.mk (Task.id task) (Task.text task)
              (dateFormat (Some (Task.start_date task)) "mm-dd-yyyy")
              (Task.duration task)
              (dateFormat (Task.end_date task) "mm-dd-yyyy")
              (Task.url task) (Task.progress task) (Task.color task).

Definition getTaskChartData (r : Realm.t) : list ChartRow.t :=
  List.map formattedTask (chartTasks r).

End Chart.

(** The handler of [/getIssueURL] for a query whose [id] parses to
    [taskId]: the argument of [res.send], unless reading [html_url] of
    [undefined] throws. *)
Definition getIssueURL (taskId : Z) (r : Realm.t) : Completion string :=
  match Realm.objectForPrimaryKey r taskId with
  | Some task => Normal (Task.html_url task)
  | None => Throw TypeError
  end.

(** What the client of a route gets: Express answers a handler that
    throws with status 500 and goes on serving. *)
Inductive Response :=
| Sent (body : string)
| InternalServerError (e : JsError).

Definition respond (handler : Realm.t -> Completion string) (r : Realm.t) : Response * Realm.t :=
  match handler r with
  | Normal body => (Sent body, r)
  | Throw e => (InternalServerError e, r)
  end.

(** ** Notions the properties are stated with *)

(** Code units other than carriage return. *)
Fixpoint noCR (s : string) : bool :=
  match s with
  | EmptyString => true
  | String c s' => negb (Ascii.eqb c (ascii_of_nat 13)) && noCR s'
  end.

(** A bare line feed. *)
Definition LF : string := String (ascii_of_nat 10) EmptyString.

(** Every label of the issue that a label keyword line of the body
    names has a colour that is a string. *)
Definition namedColored (config : Config) (issue : Issue.t) : Prop :=
  forall body labels line aLabel,
    Issue.body issue = Some body ->
    Issue.labels issue = Some labels ->
    In line (JsString.split body CRLF) ->
    JsString.indexOf line (LABEL_STRING config) = 0 ->
    In aLabel labels ->
    Label.name aLabel
    = JsString.trim (JsString.replace line (LABEL_STRING config) "") ->
    Label.color aLabel <> None.

(** The pairing of [label] and [color] that the loop over the labels keeps;
    [colored] says that the labels at hand have a colour. *)
Definition paired (colored : Prop) (v : Vars.t) : Prop :=
  (Vars.label v = None -> Vars.color v = None)
  /\ (colored -> Vars.label v <> None -> Vars.color v <> None).

(** The object that [realm.create] leaves for the values [v], given what
    was stored under their primary key. *)
Definition put (v : TaskValues.t) (stored : option Task.t) : Task.t :=
  match stored with
  | Some old => Realm.assign v old
  | None => Realm.fresh v
  end.

(** The issues that a run goes through: the items of the pages up to the
    last page, or up to the page whose next page does not arrive. *)
Fixpoint processed (issues : Issues) : list Issue.t :=
  match issues with
  | LastPage l => l
  | MorePages l _ moreIssues => l ++ processed moreIssues
  | FetchFails l _ => l
  end.

(** Every page of the feed arrives. *)
Fixpoint completes (issues : Issues) : bool :=
  match issues with
  | LastPage _ => true
  | MorePages _ _ moreIssues => completes moreIssues
  | FetchFails _ _ => false
  end.

(** The events of the pages: the writes of each page, then its fetch. *)
Definition upsertedAll (l : list Issue.t) : list Event :=
  List.map (fun issue => Upserted (Issue.id issue)) l.

Fixpoint pageLog (issues : Issues) : list Event :=
  match issues with
  | LastPage l => upsertedAll l
  | MorePages l url moreIssues => upsertedAll l ++ Fetched url :: pageLog moreIssues
  | FetchFails l url => upsertedAll l ++ [FetchRejected url]
  end.

(** The last issue with id [k] in a list of issues. *)
Fixpoint latest (k : Z) (l : list Issue.t) : option Issue.t :=
  match l with
  | [] => None
  | issue :: rest =>
      match latest k rest with
      | Some later => Some later
      | None => if Issue.id issue =? k then Some issue else None
      end
  end.

(** The writes of a list of issues, one after the other; [values] gives
    the object written for an issue. *)
Definition upserts (values : Issue.t -> TaskValues.t) (l : list Issue.t) (r : Realm.t) : Realm.t :=
  fold_left (fun r issue => Realm.create (values issue) r) l r.

(** The ids that the reconciliation marks: those stored and not seen. *)
Definition deletedIdsOf (idArray : list Z) (r : Realm.t) : list Z :=
  List.filter (fun el => Array_indexOf idArray el <? 0)
              (List.map Task.id (Realm.objects r)).

(** Events of the reconciliation. *)
Definition isPruned (e : Event) : bool :=
  match e with Pruned _ => true | _ => false end.

Definition isCompletion (e : Event) : bool :=
  match e with CompletionCalled => true | _ => false end.

Definition isUpserted (e : Event) : bool :=
  match e with Upserted _ => true | _ => false end.

(** Order by two keys: [a] comes before [b] when its primary key is
    strictly smaller, or when the primary keys are equivalent and its
    secondary key is not greater. The keys are given by their
    comparisons. *)
Definition lexBefore {A} (primary secondary : A -> A -> bool) (a b : A) : Prop :=
  (primary a b = true /\ primary b a = false)
  \/ (primary a b = true /\ primary b a = true /\ secondary a b = true).

(** The order of the chart: [label] ascending (null first), and within a
    label [start_date] descending. *)
Definition chartBefore (a b : Task.t) : Prop :=
  (Realm.le_option_string (Task.label a) (Task.label b) = true
   /\ Task.label a <> Task.label b)
  \/ (Task.label a = Task.label b /\ Task.start_date b <= Task.start_date a).

(** ** The route [/refreshData] *)

(** [completion()] was called in the run. *)
Definition completionCalled (run : Run) : bool :=
  existsb isCompletion (log run).

Section Routes.

Variable config : Config.
Variable newDate : string -> option Z.
Variable sanitizeFloat : string -> option float.
Variable dateFormat : option Z -> string -> string.

(** The handler of [/refreshData]. [first] is what the fetch of the first
    page gives, [None] when it is rejected: the callback of [then] does
    not run then. The callback given as [completion] sends the chart data
    of the Realm as it is when it is called, at the end of the run;
    without that call nothing is sent ([None]). *)
Definition refreshData (first : option Issues) (r : Realm.t) : option (list ChartRow.t) * Realm.t :=
  match first with
  | None => (None, r)
  | Some issues =>
      let run := refresh config newDate sanitizeFloat issues r in
      (if completionCalled run
       then Some (getTaskChartData dateFormat (realm run))
       else None,
       realm run)
  end.

End Routes.

(** ** Notions for the further properties *)

(** The line does not change a variable through the keyword: it does not
    start with the keyword, or no valid date follows the keyword. *)
Definition noDateAt (newDate : string -> option Z) (keyword line : string) : Prop :=
  JsString.indexOf line keyword <> 0
  \/ newDate (JsString.replace line keyword "") = None.

(** The line starts with none of the four keywords. *)
Definition noKeywordAt (config : Config) (line : string) : Prop :=
  JsString.indexOf line (START_DATE_STRING config) <> 0
  /\ JsString.indexOf line (DUE_DATE_STRING config) <> 0
  /\ JsString.indexOf line (LABEL_STRING config) <> 0
  /\ JsString.indexOf line (PROGRESS_STRING config) <> 0.

(** [label] and [color] come from a label of the issue. *)
Definition resolved (issue : Issue.t) (v : Vars.t) : Prop :=
  (forall n, Vars.label v = Some n ->
             exists labels aLabel,
               Issue.labels issue = Some labels /\ In aLabel labels
               /\ Label.name aLabel = n)
  /\ (forall c, Vars.color v = Some c ->
                exists labels aLabel code,
                  Issue.labels issue = Some labels /\ In aLabel labels
                  /\ Label.color aLabel = Some code
                  /\ c = "#" +:+ JsString.toUpperCase code).

(** ** Sample data *)

(** A configuration, and [new Date] and [sanitizeFloat] on the strings of
    the examples (a date-only ISO string is midnight UTC). *)
Definition sampleConfig : Config :=
  Build_Config "Start Date: " "Due Date: " "Label: " "Progress: ".

Definition sampleDate (s : string) : option Z :=
  if String.eqb s "2017-03-01" then Some 1488326400000
  else if String.eqb s "2017-03-15" then Some 1489536000000
  else None.

Definition sampleFloat (s : string) : option float :=
  if String.eqb s "0.5" then Some 0.5%float else None.

(** An open issue with the given id, body and labels. *)
Definition sampleIssue (id : Z) (body : option string) (labels : option (list Label.t)) : Issue.t :=
  Issue.mk id (Some "Write the report") body
           (Some "https://api.github.com/repos/o/r/issues/7")
           (Some "https://github.com/o/r/issues/7")
           7 "open" 1488000000000 labels.

(** Bodies with a due date line after CR LF, and after a bare LF. *)
Definition bodyCRLF : string := "Plan" +:+ CRLF +:+ "Due Date: 2017-03-01".
Definition bodyLF : string := "Plan" +:+ LF +:+ "Due Date: 2017-03-01".

(** A body whose last line has the due date keyword after index 0. *)
Definition bodyMidLine : string :=
  bodyCRLF +:+ CRLF +:+ "see Due Date: 2017-03-15".

(** An issue whose body names its label [bug]. *)
Definition labelled (color : option string) : Issue.t :=
  sampleIssue 7 (Some "Label: bug") (Some [Label.mk "bug" color]).

(** An issue whose body names the coloured label [bug] and then the
    label [wontfix], which has no colour; and an issue with the same
    labels whose body names [bug] only. *)
Definition bodyStale : string := "Label: bug" +:+ CRLF +:+ "Label: wontfix".

Definition staleIssue : Issue.t :=
  sampleIssue 7 (Some bodyStale)
              (Some [Label.mk "bug" (Some "fc2929"); Label.mk "wontfix" None]).

Definition namedIssue : Issue.t :=
  sampleIssue 7 (Some "Label: bug")
              (Some [Label.mk "bug" (Some "fc2929"); Label.mk "wontfix" None]).

(** A stored task, and a table with the ids 1, 2 and 3 in which 3 is
    marked deleted and is of type project. *)
Definition sampleTask (id : Z) (deleted : bool) (type : option string) : Task.t :=
  Task.mk "Old title" 1480000000000 1 id "" "" "https://github.com/o/r/issues/0"
          id "open" deleted type None None None None None None None.

Definition store123 : Realm.t :=
  <[1 := sampleTask 1 false None]>
    (<[2 := sampleTask 2 false None]>
       (<[3 := sampleTask 3 true (Some "project")]> ∅)).

(** A table as [processIssues] writes it, in which 3 is marked
    deleted. *)
Definition storeWritten : Realm.t :=
  <[1 := sampleTask 1 false None]> (<[3 := sampleTask 3 true None]> ∅).

(** A feed of two pages with the issues 1 and 3, and the same feed when
    its second page does not arrive. *)
Definition feed13 : Issues :=
  MorePages [sampleIssue 1 None None] "https://api.github.com/repos/o/r/issues?page=2"
            (LastPage [sampleIssue 3 (Some bodyCRLF) None]).

Definition feedBroken : Issues :=
  FetchFails [sampleIssue 1 None None] "https://api.github.com/repos/o/r/issues?page=2".

(** Tasks for the chart: A and B with label x, C with label y, and three
    tasks that are closed, deleted, or without end date. *)
Definition chartTask (id start : Z) (label : option string) (state : string)
           (deleted : bool) (end_date : option Z) : Task.t :=
  Task.mk "Task" start 1 id "" "" "" id state deleted None None None None None
          end_date None label.

Definition chartStore : Realm.t :=
  <[1 := chartTask 1 5 (Some "x") "open" false (Some 20)]>
    (<[2 := chartTask 2 10 (Some "x") "open" false (Some 20)]>
       (<[3 := chartTask 3 1 (Some "y") "open" false (Some 20)]>
          (<[4 := chartTask 4 7 (Some "x") "closed" false (Some 20)]>
             (<[5 := chartTask 5 8 (Some "x") "open" true (Some 20)]>
                (<[6 := chartTask 6 9 None "open" false None]> ∅))))).

(** A date function that takes no text for a date. *)
Definition noDate (s : string) : option Z := None.

(** The current date for a null date, a fixed text otherwise. *)
Definition sampleFormat (date : option Z) (mask : string) : string :=
  match date with Some _ => mask | None => "today" end.

(** A body with two start date lines, the second without a valid date,
    two progress lines, the second without a number, and a label line
    with blanks around the name. *)
Definition bodyKeywords : string :=
  "Start Date: 2017-03-01" +:+ CRLF +:+ "Start Date: soon" +:+ CRLF +:+
  "Progress: 0.5" +:+ CRLF +:+ "Progress: half" +:+ CRLF +:+ "Label:   bug  ".

Definition keywordIssue : Issue.t :=
  sampleIssue 7 (Some bodyKeywords)
              (Some [Label.mk "feature" (Some "00ff00"); Label.mk "bug" (Some "fc2929")]).

(** A feed in which the issue 1 comes twice, closed on the first page and
    open with a due date on the second. *)
Definition closedIssue (id : Z) : Issue.t :=
  Issue.mk id None None None None id "closed" 1488000000000 None.

Definition feedTwice : Issues :=
  MorePages [closedIssue 1] "https://api.github.com/repos/o/r/issues?page=2"
            (LastPage [sampleIssue 1 (Some bodyCRLF) None]).

(** A feed of one page without items. *)
Definition feedEmpty : Issues := LastPage [].

(** * Properties *)

(** ** Strings *)

Lemma prefix_append (p rest : string) : String.prefix p (p +:+ rest) = true.
Proof.
  induction p as [|c p IH]; simpl.
  - now destruct rest.
  - destruct (ascii_dec c c); [exact IH | congruence].
Qed.

Lemma index_zero_prefix (p s : string) :
  String.index 0 p s = Some 0%nat <-> String.prefix p s = true.
Proof.
  destruct s as [|b s].
  - destruct p; simpl; split; congruence.
  - cbn [String.index].
    destruct (String.prefix p (String b s)); [tauto|].
    destruct (String.index 0 p s); split; congruence.
Qed.

(** [!line.indexOf(keyword)] holds exactly when the line starts with the
    keyword. *)
Lemma not_indexOf_prefix (line keyword : string) :
  js_not (JsString.indexOf line keyword) = true <-> String.prefix keyword line = true.
Proof.
  unfold js_not, JsString.indexOf. rewrite <- index_zero_prefix.
  destruct (String.index 0 keyword line) as [n|]; rewrite Z.eqb_eq.
  - split; [intros H; f_equal; lia | intros [= ->]; reflexivity].
  - split; [lia | discriminate].
Qed.

Lemma indexOf_nonzero (line keyword : string) :
  JsString.indexOf line keyword <> 0 -> js_not (JsString.indexOf line keyword) = false.
Proof. unfold js_not. intros H. now apply Z.eqb_neq. Qed.

Lemma substring_all (s : string) : String.substring 0 (String.length s) s = s.
Proof. induction s; simpl; congruence. Qed.

Lemma substring_skip (p rest : string) (n : nat) :
  String.substring (String.length p) n (p +:+ rest) = String.substring 0 n rest.
Proof. induction p; simpl; [reflexivity | exact IHp]. Qed.

Lemma length_append (p rest : string) :
  String.length (p +:+ rest) = (String.length p + String.length rest)%nat.
Proof. induction p; simpl; [reflexivity | now rewrite IHp]. Qed.

(** Replacing a keyword at the start of a line by the empty string leaves
    what follows the keyword. *)
Lemma replace_prefix (keyword rest : string) :
  JsString.replace (keyword +:+ rest) keyword "" = rest.
Proof.
  unfold JsString.replace.
  pose proof (proj2 (index_zero_prefix keyword (keyword +:+ rest))
                    (prefix_append keyword rest)) as ->.
  replace (String.substring 0 0 (keyword +:+ rest)) with EmptyString
    by now destruct (keyword +:+ rest).
  simpl. rewrite substring_skip, length_append.
  replace (String.length keyword + String.length rest - String.length keyword)%nat
    with (String.length rest) by lia.
  apply substring_all.
Qed.

Lemma noCR_append (a b : string) : noCR (a +:+ b) = noCR a && noCR b.
Proof. induction a; simpl; [reflexivity | rewrite IHa; apply andb_assoc]. Qed.

Lemma prefix_CRLF_cons (c : ascii) (s : string) :
  Ascii.eqb c (ascii_of_nat 13) = false -> String.prefix CRLF (String c s) = false.
Proof.
  intros H. unfold CRLF.
  change (String.prefix (String (ascii_of_nat 13) ?p) (String c s))
    with (if ascii_dec (ascii_of_nat 13) c then String.prefix p s else false).
  destruct (ascii_dec (ascii_of_nat 13) c) as [<-|]; [|reflexivity].
  now rewrite Ascii.eqb_refl in H.
Qed.

(** A text without carriage return is one line. *)
Lemma split_noCR (s : string) : noCR s = true -> JsString.split s CRLF = [s].
Proof.
  unfold JsString.split. change (noCR s = true -> JsString.split_from CRLF 0 s = [s]).
  induction s as [|c s IH]; simpl noCR; intros H; [reflexivity|].
  apply andb_true_iff in H as [Hc Hs]. apply negb_true_iff in Hc.
  cbn [JsString.split_from]. rewrite (prefix_CRLF_cons _ _ Hc), (IH Hs).
  reflexivity.
Qed.

Lemma split_from_CRLF (rest : string) :
  JsString.split_from CRLF 0 (CRLF +:+ rest)
  = EmptyString :: JsString.split_from CRLF 0 rest.
Proof.
  change (CRLF +:+ rest)
    with (String (ascii_of_nat 13) (String (ascii_of_nat 10) rest)).
  cbn [JsString.split_from].
  change (String (ascii_of_nat 13) (String (ascii_of_nat 10) rest))
    with (CRLF +:+ rest).
  rewrite prefix_append. reflexivity.
Qed.

(** A first line without carriage return ends at the first CR LF. *)
Lemma split_first_line (first rest : string) :
  noCR first = true ->
  JsString.split (first +:+ CRLF +:+ rest) CRLF = first :: JsString.split rest CRLF.
Proof.
  unfold JsString.split.
  change (noCR first = true ->
          JsString.split_from CRLF 0 (first +:+ CRLF +:+ rest)
          = first :: JsString.split_from CRLF 0 rest).
  induction first as [|c s IH]; simpl noCR; intros H.
  - apply split_from_CRLF.
  - apply andb_true_iff in H as [Hc Hs]. apply negb_true_iff in Hc.
    change (String c s +:+ CRLF +:+ rest) with (String c (s +:+ CRLF +:+ rest)).
    cbn [JsString.split_from]. rewrite (prefix_CRLF_cons _ _ Hc), (IH Hs).
    reflexivity.
Qed.

Lemma prefix_split (p s : string) :
  String.prefix p s = true -> exists rest, s = p +:+ rest.
Proof.
  revert s. induction p as [|c p IH]; intros s H.
  - now exists s.
  - destruct s as [|b s]; simpl in H; [discriminate|].
    destruct (ascii_dec c b) as [->|]; [|discriminate].
    destruct (IH _ H) as [rest ->]. now exists rest.
Qed.

Lemma split_from_cons (c : ascii) (s : string) :
  String.prefix CRLF (String c s) = false ->
  JsString.split_from CRLF 0 (String c s)
  = match JsString.split_from CRLF 0 s with
    | line :: lines => String c line :: lines
    | [] => [String c EmptyString]
    end.
Proof. intros H. cbn [JsString.split_from]. now rewrite H. Qed.

(** The first line starts as the text does. *)
Lemma split_from_head (s line : string) (lines : list string) (a : ascii) (line' : string) :
  JsString.split_from CRLF 0 s = line :: lines ->
  line = String a line' -> exists s', s = String a s'.
Proof.
  destruct s as [|c s]; [intros [= <- _]; discriminate|].
  destruct (String.prefix CRLF (String c s)) eqn:Hp.
  - apply prefix_split in Hp as [rest Hrest]. rewrite Hrest, split_from_CRLF.
    intros [= <- _]. discriminate.
  - rewrite (split_from_cons _ _ Hp).
    destruct (JsString.split_from CRLF 0 s); intros [= <- _] [= <- _]; eauto.
Qed.

(** Joining the lines of a text with CR LF gives the text back, and no
    line has CR LF in it. *)
Lemma split_concat (s : string) :
  String.concat CRLF (JsString.split s CRLF) = s
  /\ Forall (fun line => JsString.indexOf line CRLF = -1) (JsString.split s CRLF).
Proof.
  change (JsString.split s CRLF) with (JsString.split_from CRLF 0 s).
  assert (H : forall n s, (String.length s <= n)%nat ->
                          JsString.split_from CRLF 0 s <> []
                          /\ String.concat CRLF (JsString.split_from CRLF 0 s) = s
                          /\ Forall (fun line => JsString.indexOf line CRLF = -1)
                                    (JsString.split_from CRLF 0 s)).
  { clear s. induction n as [|n IH]; intros s Hlen.
    - destruct s; [|cbn in Hlen; lia].
      split; [discriminate|]. split; [reflexivity|]. now repeat constructor.
    - destruct s as [|c s].
      { split; [discriminate|]. split; [reflexivity|]. now repeat constructor. }
      destruct (String.prefix CRLF (String c s)) eqn:Hp.
      + apply prefix_split in Hp as [rest Hrest]. rewrite Hrest, split_from_CRLF.
        destruct (IH rest) as (Hne & Hcat & Hall).
        { rewrite Hrest, length_append in Hlen.
          change (String.length CRLF) with 2%nat in Hlen. lia. }
        split; [discriminate|]. split; [|now constructor].
        destruct (JsString.split_from CRLF 0 rest) as [|l ls]; [contradiction|].
        change (String.concat CRLF (EmptyString :: l :: ls))
          with (EmptyString +:+ CRLF +:+ String.concat CRLF (l :: ls)).
        now rewrite Hcat.
      + rewrite (split_from_cons _ _ Hp).
        destruct (IH s) as (Hne & Hcat & Hall); [cbn in Hlen; lia|].
        destruct (JsString.split_from CRLF 0 s) as [|l ls] eqn:Hs; [contradiction|].
        split; [discriminate|]. split.
        * destruct ls as [|l2 ls]; cbn [String.concat] in *; now rewrite <- Hcat.
        * apply List.Forall_cons_iff in Hall as [Hl Hls]. constructor; [|exact Hls].
          unfold JsString.indexOf in *. cbn [String.index].
          destruct (String.prefix CRLF (String c l)) eqn:Hpl.
          -- exfalso. apply prefix_split in Hpl as [rest Hrest].
             injection Hrest as -> ->.
             destruct (split_from_head _ _ _ _ _ Hs eq_refl) as [s' ->].
             change (String (ascii_of_nat 13) (String (ascii_of_nat 10) s'))
               with (CRLF +:+ s') in Hp.
             rewrite prefix_append in Hp. discriminate.
          -- destruct (String.index 0 CRLF l); [lia | reflexivity]. }
  destruct (H (String.length s) s) as (_ & Hcat & Hall); [lia|]. now split.
Qed.

(** ** Keywords of a body *)

Section Keywords.

Variable config : Config.
Variable newDate : string -> option Z.
Variable sanitizeFloat : string -> option float.

Local Abbreviation scan := (scanLine config newDate sanitizeFloat).

(** The loop over the labels assigns [label] and [color] only. *)
Lemma matchLabels_others (s : string) (labels : list Label.t) (v : Vars.t) :
  Vars.startDate (fold_left (matchLabel s) labels v) = Vars.startDate v
  /\ Vars.dueDate (fold_left (matchLabel s) labels v) = Vars.dueDate v
  /\ Vars.progress (fold_left (matchLabel s) labels v) = Vars.progress v.
Proof.
  revert v. induction labels as [|a labels IH]; intros v; [easy|].
  cbn [fold_left]. destruct (IH (matchLabel s v a)) as (-> & -> & ->).
  unfold matchLabel.
  destruct (String.eqb _ _); [destruct (Label.color a)|]; easy.
Qed.

(** Case analysis on the guards of [scanLine] that are left in the goal,
    then the loop over the labels is passed over. *)
Ltac scan_cases :=
  repeat match goal with
         | |- context [js_not ?x] => destruct (js_not x)
         | |- context [newDate ?x] => destruct (newDate x)
         | |- context [Issue.labels ?i] => destruct (Issue.labels i)
         end;
  cbn;
  repeat match goal with
         | |- context [fold_left (matchLabel ?s) ?l ?v] =>
             let H1 := fresh in
             let H2 := fresh in
             let H3 := fresh in
             pose proof (matchLabels_others s l v) as (H1 & H2 & H3);
             cbn in H1, H2, H3; rewrite ?H1, ?H2, ?H3; clear H1 H2 H3
         end;
  try reflexivity.

(** What a line does to [dueDate], [startDate] and [progress]. *)
Lemma scanLine_dueDate (issue : Issue.t) (v : Vars.t) (line : string) :
  Vars.dueDate (scan issue v line) =
  if js_not (JsString.indexOf line (DUE_DATE_STRING config)) then
    match newDate (JsString.replace line (DUE_DATE_STRING config) "") with
    | Some date => Some date
    | None => Vars.dueDate v
    end
  else Vars.dueDate v.
Proof.
  destruct (js_not (JsString.indexOf line (DUE_DATE_STRING config))) eqn:Hdue;
    [destruct (newDate (JsString.replace line (DUE_DATE_STRING config) "")) eqn:Hd|];
    unfold scanLine, utilities.isString; rewrite Hdue, ?Hd; scan_cases.
Qed.

Lemma scanLine_startDate (issue : Issue.t) (v : Vars.t) (line : string) :
  Vars.startDate (scan issue v line) =
  if js_not (JsString.indexOf line (START_DATE_STRING config)) then
    match newDate (JsString.replace line (START_DATE_STRING config) "") with
    | Some date => date
    | None => Vars.startDate v
    end
  else Vars.startDate v.
Proof.
  destruct (js_not (JsString.indexOf line (START_DATE_STRING config))) eqn:Hs;
    [destruct (newDate (JsString.replace line (START_DATE_STRING config) "")) eqn:Hd|];
    unfold scanLine, utilities.isString; rewrite Hs, ?Hd; scan_cases.
Qed.

Lemma scanLine_progress (issue : Issue.t) (v : Vars.t) (line : string) :
  Vars.progress (scan issue v line) =
  if js_not (JsString.indexOf line (PROGRESS_STRING config)) then
    sanitizeFloat (JsString.replace line (PROGRESS_STRING config) "")
  else Vars.progress v.
Proof.
  destruct (js_not (JsString.indexOf line (PROGRESS_STRING config))) eqn:Hp;
    unfold scanLine, utilities.isString; rewrite Hp; scan_cases.
Qed.

(** A line that does not start with the label keyword leaves [label] and
    [color] as they are. *)
Lemma scanLine_label_miss (issue : Issue.t) (v : Vars.t) (line : string) :
  js_not (JsString.indexOf line (LABEL_STRING config)) = false ->
  Vars.label (scan issue v line) = Vars.label v
  /\ Vars.color (scan issue v line) = Vars.color v.
Proof.
  intros Hl. unfold scanLine. rewrite Hl. split; scan_cases.
Qed.

(** Lines that do not start with the due date keyword, or that carry no
    valid date after it, leave [dueDate]. *)
Lemma scan_lines_dueDate_miss (issue : Issue.t) (lines : list string) (v : Vars.t) :
  Forall (fun l => JsString.indexOf l (DUE_DATE_STRING config) <> 0
                   \/ newDate (JsString.replace l (DUE_DATE_STRING config) "") = None)
         lines ->
  Vars.dueDate (fold_left (scan issue) lines v) = Vars.dueDate v.
Proof.
  intros H. revert v. induction H as [|l lines Hl _ IH]; intros v; [reflexivity|].
  cbn [fold_left]. rewrite IH, scanLine_dueDate.
  destruct Hl as [Hl| ->].
  - now rewrite (indexOf_nonzero _ _ Hl).
  - now destruct (js_not _).
Qed.

(** C7. A keyword counts only at index 0 of a line. When a line of the
    body is the due date keyword followed by a text that [new Date] parses,
    and no later line has the keyword at index 0 with a valid date after
    it, [end_date] of the task is that date. A line in which a keyword is
    absent or first occurs after index 0 leaves the variable of that
    keyword as it was, and a body without a line that starts with the due
    date keyword has no [end_date]. *)
Theorem keyword_only_at_line_start (issue : Issue.t) :
  (forall body before rest after date,
      Issue.body issue = Some body ->
      JsString.split body CRLF
      = before ++ (DUE_DATE_STRING config +:+ rest) :: after ->
      newDate rest = Some date ->
      Forall (fun l => JsString.indexOf l (DUE_DATE_STRING config) <> 0
                       \/ newDate (JsString.replace l (DUE_DATE_STRING config) "") = None)
             after ->
      TaskValues.end_date (taskValues config newDate sanitizeFloat issue) = Some date)
  /\ (forall v line,
         (JsString.indexOf line (START_DATE_STRING config) <> 0 ->
          Vars.startDate (scan issue v line) = Vars.startDate v)
         /\ (JsString.indexOf line (DUE_DATE_STRING config) <> 0 ->
             Vars.dueDate (scan issue v line) = Vars.dueDate v)
         /\ (JsString.indexOf line (LABEL_STRING config) <> 0 ->
             Vars.label (scan issue v line) = Vars.label v
             /\ Vars.color (scan issue v line) = Vars.color v)
         /\ (JsString.indexOf line (PROGRESS_STRING config) <> 0 ->
             Vars.progress (scan issue v line) = Vars.progress v))
  /\ (forall body,
         Issue.body issue = Some body ->
         Forall (fun l => JsString.indexOf l (DUE_DATE_STRING config) <> 0)
                (JsString.split body CRLF) ->
         TaskValues.end_date (taskValues config newDate sanitizeFloat issue) = None).
Proof.
  split; [|split].
  - intros body before rest after date Hbody Hsplit Hdate Hafter.
    unfold taskValues. cbn [TaskValues.end_date]. unfold findKeywords. rewrite Hbody, Hsplit.
    rewrite fold_left_app. cbn [fold_left].
    rewrite (scan_lines_dueDate_miss _ _ _ Hafter), scanLine_dueDate.
    rewrite (proj2 (not_indexOf_prefix _ _) (prefix_append _ _)).
    now rewrite replace_prefix, Hdate.
  - intros v line.
    split; [|split; [|split]]; intros H; apply indexOf_nonzero in H.
    + now rewrite scanLine_startDate, H.
    + now rewrite scanLine_dueDate, H.
    + now apply scanLine_label_miss.
    + now rewrite scanLine_progress, H.
  - intros body Hbody Hall. unfold taskValues. cbn [TaskValues.end_date].
    unfold findKeywords. rewrite Hbody. rewrite scan_lines_dueDate_miss; [reflexivity|].
    eapply List.Forall_impl; [|exact Hall]. intros l Hl. now left.
Qed.

(** C8, as the code has it. The body is cut at the sequence CR LF and
    nowhere else: the lines joined with CR LF are the body, no line has
    CR LF in it, and [findKeywords] runs [scanLine] over these lines in
    order. After a text without carriage return, a due date line that
    follows CR LF gives [end_date]; when the same line follows a bare LF
    the whole body is one line, and unless this line itself starts with
    the keyword there is no [end_date]. *)
Theorem lines_are_cut_at_CRLF_only :
  (forall issue body,
      Issue.body issue = Some body ->
      String.concat CRLF (JsString.split body CRLF) = body
      /\ Forall (fun line => JsString.indexOf line CRLF = -1) (JsString.split body CRLF)
      /\ findKeywords config newDate sanitizeFloat issue
         = fold_left (scan issue) (JsString.split body CRLF) (initialVars issue))
  /\ (forall before rest date issue,
         noCR before = true ->
         noCR (DUE_DATE_STRING config +:+ rest) = true ->
         newDate rest = Some date ->
         (JsString.split (before +:+ CRLF +:+ DUE_DATE_STRING config +:+ rest) CRLF
          = [before; DUE_DATE_STRING config +:+ rest]
          /\ (Issue.body issue
              = Some (before +:+ CRLF +:+ DUE_DATE_STRING config +:+ rest) ->
              TaskValues.end_date (taskValues config newDate sanitizeFloat issue)
              = Some date))
         /\ (JsString.split (before +:+ LF +:+ DUE_DATE_STRING config +:+ rest) CRLF
             = [before +:+ LF +:+ DUE_DATE_STRING config +:+ rest]
             /\ (Issue.body issue
                 = Some (before +:+ LF +:+ DUE_DATE_STRING config +:+ rest) ->
                 String.prefix (DUE_DATE_STRING config)
                               (before +:+ LF +:+ DUE_DATE_STRING config +:+ rest)
                 = false ->
                 TaskValues.end_date (taskValues config newDate sanitizeFloat issue)
                 = None))).
Proof.
  split.
  { intros issue body Hbody. destruct (split_concat body) as [Hcat Hall].
    split; [exact Hcat | split; [exact Hall|]].
    unfold findKeywords. now rewrite Hbody. }
  intros before rest date issue Hbefore Hline Hdate.
  assert (Hcut : JsString.split (before +:+ CRLF +:+ DUE_DATE_STRING config +:+ rest) CRLF
                 = [before; DUE_DATE_STRING config +:+ rest])
    by now rewrite split_first_line, split_noCR.
  assert (Hone : JsString.split (before +:+ LF +:+ DUE_DATE_STRING config +:+ rest) CRLF
                 = [before +:+ LF +:+ DUE_DATE_STRING config +:+ rest]).
  { apply split_noCR. rewrite !noCR_append, Hbefore. rewrite noCR_append in Hline.
    now rewrite Hline. }
  split; (split; [assumption|]).
  - intros Hbody. unfold taskValues. cbn [TaskValues.end_date]. unfold findKeywords.
    rewrite Hbody, Hcut.
    cbn [fold_left]. rewrite scanLine_dueDate.
    rewrite (proj2 (not_indexOf_prefix _ _) (prefix_append _ _)).
    now rewrite replace_prefix, Hdate.
  - intros Hbody Hprefix. unfold taskValues. cbn [TaskValues.end_date].
    unfold findKeywords.
    rewrite Hbody, Hone. cbn [fold_left]. rewrite scanLine_dueDate.
    destruct (js_not _) eqn:Hnot; [|reflexivity].
    apply not_indexOf_prefix in Hnot. congruence.
Qed.

End Keywords.

(** The due date line of [bodyMidLine] is honoured, its last line is not. *)
Lemma keyword_only_at_line_start_witness :
  TaskValues.end_date
    (taskValues sampleConfig sampleDate sampleFloat (sampleIssue 7 (Some bodyMidLine) None))
  = Some 1488326400000
  /\ Vars.dueDate
       (scanLine sampleConfig sampleDate sampleFloat (sampleIssue 7 (Some bodyMidLine) None)
                 (initialVars (sampleIssue 7 (Some bodyMidLine) None))
                 "see Due Date: 2017-03-15")
     = None.
Proof.
  pose proof (keyword_only_at_line_start sampleConfig sampleDate sampleFloat
                (sampleIssue 7 (Some bodyMidLine) None)) as (Hhit & Hmiss & _).
  split.
  - apply (Hhit bodyMidLine ["Plan"] "2017-03-01" ["see Due Date: 2017-03-15"]);
      [reflexivity | reflexivity | reflexivity |].
    constructor; [left; vm_compute; discriminate | constructor].
  - apply (Hmiss (initialVars (sampleIssue 7 (Some bodyMidLine) None))
                 "see Due Date: 2017-03-15").
    vm_compute. discriminate.
Defined.

(** C8 fails as stated: the due date line is read after CR LF and is not
    read after a bare LF. *)
Lemma line_after_bare_LF_is_not_read :
  TaskValues.end_date
    (taskValues sampleConfig sampleDate sampleFloat (sampleIssue 7 (Some bodyCRLF) None))
  = Some 1488326400000
  /\ TaskValues.end_date
       (taskValues sampleConfig sampleDate sampleFloat (sampleIssue 7 (Some bodyLF) None))
     = None.
Proof. split; vm_compute; reflexivity. Qed.

Lemma lines_are_cut_at_CRLF_only_witness :
  JsString.split bodyCRLF CRLF = ["Plan"; "Due Date: 2017-03-01"]
  /\ JsString.split bodyLF CRLF = [bodyLF]
  /\ TaskValues.end_date
       (taskValues sampleConfig sampleDate sampleFloat (sampleIssue 7 (Some bodyLF) None))
     = None.
Proof.
  pose proof (proj2 (lines_are_cut_at_CRLF_only sampleConfig sampleDate sampleFloat)
                "Plan" "2017-03-01" 1488326400000
                (sampleIssue 7 (Some bodyLF) None)
                eq_refl eq_refl eq_refl) as ((Hcut & _) & Hone & Hnone).
  split; [exact Hcut | split; [exact Hone |]].
  apply Hnone; reflexivity.
Defined.

(** C4 fails as stated: the label [bug] of the issue has no colour, and
    the task has the label without a colour. *)
Lemma label_without_color :
  TaskValues.label (taskValues sampleConfig sampleDate sampleFloat (labelled None))
  = Some "bug"
  /\ TaskValues.color (taskValues sampleConfig sampleDate sampleFloat (labelled None))
     = None.
Proof. split; vm_compute; reflexivity. Qed.

(** ** The store *)

Lemma create_put (v : TaskValues.t) (r : Realm.t) :
  Realm.create v r = <[TaskValues.id v := put v (r !! TaskValues.id v)]> r.
Proof.
  unfold Realm.create, Realm.objectForPrimaryKey, put.
  now destruct (r !! TaskValues.id v).
Qed.

Lemma put_id (v : TaskValues.t) (stored : option Task.t) :
  Task.id (put v stored) = TaskValues.id v.
Proof. now destruct stored. Qed.

Lemma put_isDeleted (v : TaskValues.t) (stored : option Task.t) :
  Task.isDeleted (put v stored) = TaskValues.isDeleted v.
Proof. now destruct stored. Qed.

(** Only the last write of an object shows. *)
Lemma put_put (v w : TaskValues.t) (stored : option Task.t) :
  put v (Some (put w stored)) = put v stored.
Proof. now destruct stored. Qed.

Lemma create_lookup (v : TaskValues.t) (r : Realm.t) (k : Z) :
  Realm.create v r !! k
  = if decide (TaskValues.id v = k) then Some (put v (r !! k)) else r !! k.
Proof.
  rewrite create_put, lookup_insert. now case_decide; subst.
Qed.

Lemma create_keyed (v : TaskValues.t) (r : Realm.t) :
  Realm.keyed r -> Realm.keyed (Realm.create v r).
Proof.
  intros Hr k task. rewrite create_lookup. case_decide.
  - intros [= <-]. now rewrite put_id.
  - apply Hr.
Qed.

Lemma objects_In (r : Realm.t) (task : Task.t) :
  In task (Realm.objects r) <-> exists k, r !! k = Some task.
Proof.
  unfold Realm.objects. rewrite in_map_iff. split.
  - intros ([k t] & <- & Hin). exists k.
    now apply elem_of_map_to_list, list_elem_of_In.
  - intros (k & Hk). exists (k, task). split; [reflexivity|].
    now apply list_elem_of_In, elem_of_map_to_list.
Qed.

(** [idArray.indexOf(el) < 0] says that [el] is not in [idArray]. *)
Lemma Array_indexOf_neg (array : list Z) (el : Z) :
  (Array_indexOf array el <? 0) = true <-> ~ In el array.
Proof.
  induction array as [|x rest IH]; cbn [Array_indexOf In].
  - split; [tauto | reflexivity].
  - destruct (Z.eqb_spec x el) as [->|Hne].
    + split; [discriminate | tauto].
    + destruct (Array_indexOf rest el <? 0) eqn:Hi.
      * split; [|reflexivity]. intros _ [Hx|Hin]; [tauto|]. now apply IH.
      * apply Z.ltb_ge in Hi. split.
        -- intros H. apply Z.ltb_lt in H. lia.
        -- intros H. exfalso. apply H. right.
           destruct (in_dec Z.eq_dec el rest) as [|Hn]; [assumption|].
           apply IH in Hn. discriminate.
Qed.

(** When every listed id is stored, the write ends normally: the listed
    objects are marked and the others are as before. *)
Lemma markDeleted_present (deletedIds : list Z) (r : Realm.t) :
  (forall k, In k deletedIds -> is_Some (r !! k)) ->
  exists r',
    markDeleted deletedIds r = Normal r'
    /\ forall k,
        (In k deletedIds -> r' !! k = Task.set_isDeleted true <$> r !! k)
        /\ (~ In k deletedIds -> r' !! k = r !! k).
Proof.
  revert r. induction deletedIds as [|d rest IH]; intros r Hall.
  - exists r. split; [reflexivity|]. intros k. split; [intros []|reflexivity].
  - destruct (Hall d (or_introl eq_refl)) as [task Htask].
    cbn [markDeleted]. unfold Realm.objectForPrimaryKey. rewrite Htask.
    destruct (IH (<[d := Task.set_isDeleted true task]> r)) as (r' & Hrun & Hget).
    { intros k Hk. rewrite lookup_insert. case_decide; [eauto|].
      apply Hall. now right. }
    exists r'. split; [exact Hrun|]. intros k.
    destruct (Hget k) as [Hin Hout]. split.
    + intros Hk. destruct (in_dec Z.eq_dec k rest) as [Hr|Hr].
      * rewrite (Hin Hr), lookup_insert. case_decide; [subst|reflexivity].
        now rewrite Htask.
      * destruct Hk as [<-|Hk]; [|contradiction].
        rewrite (Hout Hr), lookup_insert_eq. now rewrite Htask.
    + intros Hk. rewrite Hout by (intros ?; apply Hk; now right).
      rewrite lookup_insert_ne; [reflexivity|]. intros ->. apply Hk. now left.
Qed.

(** The ids to prune are the stored ids that the run has not seen. *)
Lemma deletedIds_In (idArray : list Z) (r : Realm.t) (k : Z) :
  Realm.keyed r ->
  In k (deletedIdsOf idArray r) <-> is_Some (r !! k) /\ ~ In k idArray.
Proof.
  intros Hr. unfold deletedIdsOf. rewrite filter_In, Array_indexOf_neg, in_map_iff.
  split; intros [H Hn]; (split; [|exact Hn]).
  - destruct H as (task & <- & Hin). apply objects_In in Hin as [k' Hk'].
    rewrite <- (Hr _ _ Hk') in Hk'. eauto.
  - destruct H as [task Htask]. exists task. split; [now apply Hr|].
    apply objects_In. eauto.
Qed.

(** ** Runs of processIssues *)

Section Runs.

Variable config : Config.
Variable newDate : string -> option Z.
Variable sanitizeFloat : string -> option float.

Local Abbreviation values := (taskValues config newDate sanitizeFloat).
Local Abbreviation step := (processIssue config newDate sanitizeFloat).
Local Abbreviation run_from := (processIssues config newDate sanitizeFloat).
Local Abbreviation sync := (refresh config newDate sanitizeFloat).

(** The loop over the items of a page. *)
Lemma fold_processIssue (l : list Issue.t) (run : Run) (idArray : list Z) :
  fold_left step l (run, idArray)
  = (mkRun (upserts values l (realm run)) (log run ++ upsertedAll l),
     idArray ++ List.map Issue.id l).
Proof.
  revert run idArray. induction l as [|issue l IH]; intros run idArray.
  - cbn. rewrite !app_nil_r. now destruct run.
  - cbn [fold_left]. unfold processIssue at 2. cbn [Realm.write].
    rewrite IH. cbn [realm log upsertedAll List.map upserts fold_left].
    now rewrite <- !app_assoc.
Qed.

(** A run is the writes of the processed issues, then the pruning when
    every page arrived. *)
Lemma processIssues_unfold (issues : Issues) (idArray : option (list Z)) (run : Run) :
  run_from issues idArray run
  = let run' := mkRun (upserts values (processed issues) (realm run))
                      (log run ++ pageLog issues) in
    if completes issues
    then prune run' (default [] idArray ++ List.map Issue.id (processed issues))
    else run'.
Proof.
  revert idArray run.
  induction issues as [l|l url more IH|l url]; intros idArray run;
    cbn [processIssues items processed completes pageLog];
    replace (if utilities.isArray idArray then default [] idArray else [])
      with (default [] idArray) by (now destruct idArray);
    rewrite fold_processIssue.
  - reflexivity.
  - rewrite IH. cbn [realm log].
    change (default [] (Some (default [] idArray ++ List.map Issue.id l)))
      with (default [] idArray ++ List.map Issue.id l).
    unfold upserts.
    rewrite fold_left_app, List.map_app, <- !app_assoc. reflexivity.
  - cbn [realm log]. now rewrite <- app_assoc.
Qed.

Lemma latest_Some (k : Z) (l : list Issue.t) (issue : Issue.t) :
  latest k l = Some issue -> Issue.id issue = k /\ In issue l.
Proof.
  induction l as [|i l IH]; cbn [latest]; [discriminate|].
  destruct (latest k l) as [later|].
  - intros [= <-]. destruct IH as [Hid Hin]; [reflexivity|]. split; [exact Hid | now right].
  - destruct (Z.eqb_spec (Issue.id i) k); [|discriminate].
    intros [= <-]. split; [assumption | now left].
Qed.

Lemma latest_None (k : Z) (l : list Issue.t) :
  latest k l = None <-> ~ In k (List.map Issue.id l).
Proof.
  induction l as [|i l IH]; cbn [latest List.map In]; [tauto|].
  destruct (latest k l) as [later|].
  - split; [discriminate|]. intros H. exfalso.
    assert (Hn : ~ In k (List.map Issue.id l)) by tauto.
    apply IH in Hn. discriminate.
  - destruct (Z.eqb_spec (Issue.id i) k); split; try tauto; discriminate.
Qed.

(** What is stored under [k] after the writes of a list of issues. *)
Lemma upserts_lookup (l : list Issue.t) (r : Realm.t) (k : Z) :
  upserts values l r !! k
  = match latest k l with
    | Some issue => Some (put (values issue) (r !! k))
    | None => r !! k
    end.
Proof.
  revert r. induction l as [|i l IH]; intros r; [reflexivity|].
  cbn [upserts fold_left latest]. fold (upserts values l (Realm.create (values i) r)).
  rewrite IH, create_lookup.
  change (TaskValues.id (values i)) with (Issue.id i).
  destruct (latest k l) as [later|].
  - case_decide; [now rewrite put_put | reflexivity].
  - destruct (Z.eqb_spec (Issue.id i) k); case_decide; congruence.
Qed.

Lemma upserts_keyed (l : list Issue.t) (r : Realm.t) :
  Realm.keyed r -> Realm.keyed (upserts values l r).
Proof.
  revert r. induction l as [|i l IH]; intros r Hr; [exact Hr|].
  apply IH. now apply create_keyed.
Qed.

(** The pruning on a table with the invariant: no exception; the objects
    whose id was seen are as before, the others are marked. *)
Lemma prune_keyed (run : Run) (idArray : list Z) :
  Realm.keyed (realm run) ->
  log (prune run idArray)
  = log run ++ [Pruned (deletedIdsOf idArray (realm run)); CompletionCalled]
  /\ forall k,
      (In k idArray -> realm (prune run idArray) !! k = realm run !! k)
      /\ (~ In k idArray ->
          realm (prune run idArray) !! k = Task.set_isDeleted true <$> realm run !! k).
Proof.
  intros Hr. unfold prune. fold (deletedIdsOf idArray (realm run)).
  destruct (markDeleted_present (deletedIdsOf idArray (realm run)) (realm run))
    as (r' & Hrun & Hget).
  { intros k Hk. now apply (deletedIds_In idArray _ k Hr). }
  unfold Realm.write. rewrite Hrun. cbn [realm log]. split; [reflexivity|].
  intros k. destruct (Hget k) as [Hin Hout].
  pose proof (deletedIds_In idArray (realm run) k Hr) as Hd. split; intros Hk.
  - apply Hout. tauto.
  - destruct (realm run !! k) as [task|] eqn:Hk'.
    + apply Hin, Hd. eauto.
    + rewrite Hout; [reflexivity|]. intros H. apply Hd in H as [[? ?] _].
      congruence.
Qed.

(** The Realm and the log after a run from a table with the invariant. *)
Lemma refresh_log (issues : Issues) (r : Realm.t) :
  Realm.keyed r ->
  log (sync issues r)
  = pageLog issues ++
    if completes issues
    then [Pruned (deletedIdsOf (List.map Issue.id (processed issues))
                               (upserts values (processed issues) r));
          CompletionCalled]
    else [].
Proof.
  intros Hr. unfold refresh. rewrite processIssues_unfold. cbn [realm log default app].
  destruct (completes issues); [|now rewrite app_nil_r].
  now rewrite (proj1 (prune_keyed
                        (mkRun (upserts values (processed issues) r) (pageLog issues))
                        (List.map Issue.id (processed issues))
                        (upserts_keyed _ _ Hr))).
Qed.

Lemma refresh_lookup (issues : Issues) (r : Realm.t) (k : Z) :
  Realm.keyed r ->
  realm (sync issues r) !! k
  = match latest k (processed issues) with
    | Some issue => Some (put (values issue) (r !! k))
    | None => if completes issues then Task.set_isDeleted true <$> r !! k else r !! k
    end.
Proof.
  intros Hr. unfold refresh. rewrite processIssues_unfold. cbn [realm log default app].
  destruct (completes issues).
  - destruct (proj2 (prune_keyed
                       (mkRun (upserts values (processed issues) r) (pageLog issues))
                       (List.map Issue.id (processed issues))
                       (upserts_keyed _ _ Hr)) k) as [Hin Hout].
    cbn [realm] in Hin, Hout.
    destruct (latest k (processed issues)) as [issue|] eqn:Hl.
    + rewrite Hin, upserts_lookup, Hl; [reflexivity|].
      apply latest_Some in Hl as [<- Hl]. now apply in_map.
    + rewrite Hout, upserts_lookup, Hl; [reflexivity|]. now apply latest_None.
  - cbn [realm]. apply upserts_lookup.
Qed.

Lemma refresh_keyed (issues : Issues) (r : Realm.t) :
  Realm.keyed r -> Realm.keyed (realm (sync issues r)).
Proof.
  intros Hr k task. rewrite (refresh_lookup _ _ _ Hr).
  destruct (latest k (processed issues)) as [issue|] eqn:Hl.
  - intros [= <-]. rewrite put_id. now apply latest_Some in Hl as [<- _].
  - destruct (completes issues); [|apply Hr].
    destruct (r !! k) as [old|] eqn:Hk; [|discriminate].
    intros [= <-]. exact (Hr _ _ Hk).
Qed.

End Runs.

(** ** Sorting *)

Section StableSort.

Context {A : Type}.

Lemma insert_sorted_perm (le : A -> A -> bool) (x : A) (l : list A) :
  Permutation (Realm.insert_sorted le x l) (x :: l).
Proof.
  induction l as [|y l IH]; cbn [Realm.insert_sorted]; [reflexivity|].
  destruct (le x y); [reflexivity|].
  rewrite IH. apply perm_swap.
Qed.

Lemma sorted_perm (le : A -> A -> bool) (l : list A) :
  Permutation (Realm.sorted le l) l.
Proof.
  induction l as [|x l IH]; cbn [Realm.sorted]; [reflexivity|].
  rewrite insert_sorted_perm. now constructor.
Qed.

Lemma Forall_insert_sorted (le : A -> A -> bool) (P : A -> Prop) (x : A) (l : list A) :
  P x -> Forall P l -> Forall P (Realm.insert_sorted le x l).
Proof.
  intros Hx Hl. apply (Permutation_Forall (Permutation_sym (insert_sorted_perm le x l))).
  now constructor.
Qed.

Section OneKey.

Variable le : A -> A -> bool.
Hypothesis le_total : forall a b, le a b = true \/ le b a = true.
Hypothesis le_trans : forall a b c, le a b = true -> le b c = true -> le a c = true.

Lemma insert_sorted_sorted (x : A) (l : list A) :
  StronglySorted (fun a b => le a b = true) l ->
  StronglySorted (fun a b => le a b = true) (Realm.insert_sorted le x l).
Proof.
  induction 1 as [|y l Hl IH Hy]; cbn [Realm.insert_sorted].
  - repeat constructor.
  - destruct (le x y) eqn:Hxy.
    + constructor; [now constructor|]. constructor; [exact Hxy|].
      eapply List.Forall_impl; [|exact Hy]. intros z. now apply le_trans.
    + constructor; [exact IH|]. apply Forall_insert_sorted; [|exact Hy].
      destruct (le_total x y); congruence.
Qed.

Lemma sorted_sorted (l : list A) :
  StronglySorted (fun a b => le a b = true) (Realm.sorted le l).
Proof.
  induction l as [|x l IH]; cbn [Realm.sorted]; [constructor|].
  now apply insert_sorted_sorted.
Qed.

End OneKey.

Section TwoKeys.

Variables primary secondary : A -> A -> bool.
Hypothesis primary_total : forall a b, primary a b = true \/ primary b a = true.
Hypothesis primary_trans :
  forall a b c, primary a b = true -> primary b c = true -> primary a c = true.

Lemma lexBefore_primary (a b : A) :
  lexBefore primary secondary a b -> primary a b = true.
Proof. unfold lexBefore. tauto. Qed.

(** Inserting by the primary key an element that is first by the
    secondary key. *)
Lemma insert_sorted_lex (x : A) (l : list A) :
  Forall (fun z => secondary x z = true) l ->
  StronglySorted (lexBefore primary secondary) l ->
  StronglySorted (lexBefore primary secondary) (Realm.insert_sorted primary x l).
Proof.
  intros Hx Hl. revert Hx.
  induction Hl as [|y l Hl IH Hy]; intros Hx; cbn [Realm.insert_sorted].
  - repeat constructor.
  - inversion Hx as [|? ? Hxy Hxl]; subst.
    destruct (primary x y) eqn:Hp.
    + constructor; [now constructor|]. constructor.
      * unfold lexBefore. destruct (primary y x); tauto.
      * rewrite List.Forall_forall in Hy, Hxl. apply List.Forall_forall. intros z Hz.
        assert (Hxz : primary x z = true)
          by (eapply primary_trans; [exact Hp | apply lexBefore_primary; auto]).
        specialize (Hxl z Hz). cbv beta in Hxl.
        unfold lexBefore. destruct (primary z x); tauto.
    + constructor; [now apply IH|]. apply Forall_insert_sorted; [|exact Hy].
      left. destruct (primary_total x y); [congruence|tauto].
Qed.

(** Sorting by the secondary key and then by the primary key orders by
    both keys. *)
Lemma sorted_sorted_lex (l : list A) :
  StronglySorted (fun a b => secondary a b = true) l ->
  StronglySorted (lexBefore primary secondary) (Realm.sorted primary l).
Proof.
  induction 1 as [|x l Hl IH Hx]; cbn [Realm.sorted]; [constructor|].
  apply insert_sorted_lex; [|exact IH].
  now apply (Permutation_Forall (Permutation_sym (sorted_perm primary l))).
Qed.

End TwoKeys.

Lemma StronglySorted_impl (R R' : A -> A -> Prop) (l : list A) :
  (forall a b, R a b -> R' a b) -> StronglySorted R l -> StronglySorted R' l.
Proof.
  intros HR. induction 1 as [|x l Hl IH Hx]; constructor; [exact IH|].
  eapply List.Forall_impl; [|exact Hx]. intros z. apply HR.
Qed.

End StableSort.

(** ** The chart *)

Lemma ascii_compare_refl (a : ascii) : Ascii.compare a a = Eq.
Proof. unfold Ascii.compare. apply N.compare_refl. Qed.

Lemma ascii_compare_Lt_trans (a b c : ascii) :
  Ascii.compare a b = Lt -> Ascii.compare b c = Lt -> Ascii.compare a c = Lt.
Proof. unfold Ascii.compare. rewrite !N.compare_lt_iff. lia. Qed.

Lemma string_compare_Lt_trans (a b c : string) :
  String.compare a b = Lt -> String.compare b c = Lt -> String.compare a c = Lt.
Proof.
  revert b c. induction a as [|x a IH]; intros [|y b] [|z c];
    cbn [String.compare]; try easy.
  destruct (Ascii.compare x y) eqn:Hxy; [| |discriminate];
    (destruct (Ascii.compare y z) eqn:Hyz; [| |discriminate]).
  - apply Ascii.compare_eq_iff in Hxy, Hyz. subst. rewrite ascii_compare_refl.
    apply IH.
  - apply Ascii.compare_eq_iff in Hxy. subst. now rewrite Hyz.
  - apply Ascii.compare_eq_iff in Hyz. subst. now rewrite Hxy.
  - now rewrite (ascii_compare_Lt_trans _ _ _ Hxy Hyz).
Qed.

Lemma string_leb_trans (a b c : string) :
  String.leb a b = true -> String.leb b c = true -> String.leb a c = true.
Proof.
  unfold String.leb.
  destruct (String.compare a b) eqn:Hab; [| |discriminate];
    (destruct (String.compare b c) eqn:Hbc; [| |discriminate]); intros _ _.
  - apply String.compare_eq_iff in Hab. subst. now rewrite Hbc.
  - apply String.compare_eq_iff in Hab. subst. now rewrite Hbc.
  - apply String.compare_eq_iff in Hbc. subst. now rewrite Hab.
  - now rewrite (string_compare_Lt_trans _ _ _ Hab Hbc).
Qed.

Lemma le_option_string_total (a b : option string) :
  Realm.le_option_string a b = true \/ Realm.le_option_string b a = true.
Proof. destruct a, b; cbn; auto using String.leb_total. Qed.

Lemma le_option_string_trans (a b c : option string) :
  Realm.le_option_string a b = true -> Realm.le_option_string b c = true ->
  Realm.le_option_string a c = true.
Proof. destruct a, b, c; cbn; try easy. apply string_leb_trans. Qed.

Lemma le_option_string_antisym (a b : option string) :
  Realm.le_option_string a b = true -> Realm.le_option_string b a = true -> a = b.
Proof.
  destruct a, b; cbn; try easy. intros H1 H2. f_equal. now apply String.leb_antisym.
Qed.

Lemma by_start_date_total (reverse : bool) (a b : Task.t) :
  Realm.by_start_date reverse a b = true \/ Realm.by_start_date reverse b a = true.
Proof. unfold Realm.by_start_date. destruct reverse; rewrite !Z.leb_le; lia. Qed.

Lemma by_start_date_trans (reverse : bool) (a b c : Task.t) :
  Realm.by_start_date reverse a b = true -> Realm.by_start_date reverse b c = true ->
  Realm.by_start_date reverse a c = true.
Proof. unfold Realm.by_start_date. destruct reverse; rewrite !Z.leb_le; lia. Qed.

Lemma lexBefore_chartBefore (a b : Task.t) :
  lexBefore Realm.by_label (Realm.by_start_date true) a b -> chartBefore a b.
Proof.
  unfold lexBefore, chartBefore, Realm.by_label, Realm.by_start_date.
  intros [[Hab Hba]|(Hab & Hba & Hs)].
  - left. split; [exact Hab|]. intros Heq. rewrite Heq in *. congruence.
  - right. split; [now apply le_option_string_antisym | now apply Z.leb_le].
Qed.

Lemma chartFilter_true (task : Task.t) :
  chartFilter task = true
  <-> Task.isDeleted task = false /\ Task.state task = "open"
      /\ Task.end_date task <> None.
Proof.
  unfold chartFilter. rewrite !andb_true_iff, negb_true_iff, String.eqb_eq.
  destruct (Task.end_date task); intuition congruence.
Qed.

(** C5. The tasks of the chart are the stored tasks that are not deleted,
    are open and have an end date, each as often as it is stored; they
    come by label ascending and, within a label, by start date
    descending. A task that fails one of the three conditions is not
    among them. *)
Theorem chart_tasks_filtered_and_ordered (r : Realm.t) :
  Permutation (chartTasks r) (List.filter chartFilter (Realm.objects r))
  /\ StronglySorted chartBefore (chartTasks r)
  /\ forall task,
      In task (chartTasks r)
      <-> (exists k, r !! k = Some task)
          /\ Task.isDeleted task = false
          /\ Task.state task = "open"
          /\ Task.end_date task <> None.
Proof.
  assert (Hperm : Permutation (chartTasks r) (List.filter chartFilter (Realm.objects r))).
  { unfold chartTasks, Realm.filtered. now rewrite !sorted_perm. }
  split; [exact Hperm | split].
  - unfold chartTasks. eapply StronglySorted_impl; [exact lexBefore_chartBefore|].
    apply sorted_sorted_lex.
    + intros a b. apply le_option_string_total.
    + intros a b c. apply le_option_string_trans.
    + apply sorted_sorted.
      * apply by_start_date_total.
      * apply by_start_date_trans.
  - intros task. split.
    + intros Hin. apply (Permutation_in _ Hperm), filter_In in Hin as [Hin Hf].
      split; [now apply objects_In | now apply chartFilter_true].
    + intros [Hin Hf]. apply (Permutation_in _ (Permutation_sym Hperm)), filter_In.
      split; [now apply objects_In | now apply chartFilter_true].
Qed.

(** B and A have label x and come by start date descending, then C with
    label y; the closed, the deleted and the undated task are left out. *)
Example chart_order_example :
  List.map Task.id (chartTasks chartStore) = [2; 1; 3].
Proof. vm_compute. reflexivity. Qed.

(** ** The claims on the store *)

Lemma keyed_empty : Realm.keyed ∅.
Proof. intros k task. now rewrite lookup_empty. Qed.

Lemma keyed_insert (k : Z) (task : Task.t) (r : Realm.t) :
  Task.id task = k -> Realm.keyed r -> Realm.keyed (<[k := task]> r).
Proof.
  intros Hk Hr k' task'. rewrite lookup_insert. case_decide.
  - intros [= <-]. congruence.
  - apply Hr.
Qed.

Lemma keyed_store123 : Realm.keyed store123.
Proof. unfold store123. repeat apply keyed_insert; try reflexivity. apply keyed_empty. Qed.

Lemma not_pruned_pageLog (issues : Issues) :
  List.filter isPruned (pageLog issues) = []
  /\ List.filter isCompletion (pageLog issues) = [].
Proof.
  assert (Hu : forall l, List.filter isPruned (upsertedAll l) = []
                         /\ List.filter isCompletion (upsertedAll l) = []).
  { unfold upsertedAll. induction l as [|i l [IH1 IH2]]; [easy|].
    cbn. now rewrite IH1, IH2. }
  induction issues as [l|l url more [IH1 IH2]|l url]; cbn [pageLog].
  - apply Hu.
  - rewrite !List.filter_app. cbn [List.filter isPruned isCompletion].
    rewrite IH1, IH2. now destruct (Hu l) as [-> ->].
  - rewrite !List.filter_app. cbn [List.filter isPruned isCompletion].
    now destruct (Hu l) as [-> ->].
Qed.

Section Claims.

Variable config : Config.
Variable newDate : string -> option Z.
Variable sanitizeFloat : string -> option float.

Local Abbreviation values := (taskValues config newDate sanitizeFloat).
Local Abbreviation step := (processIssue config newDate sanitizeFloat).
Local Abbreviation sync := (refresh config newDate sanitizeFloat).

(** C1. From a table whose primary keys are the ids of its objects, as
    Realm keeps it, a second run over the same feed leaves the Realm of
    the first run: the same ids, and under each id the same object. *)
Theorem sync_twice_is_sync_once (issues : Issues) (r : Realm.t) :
  Realm.keyed r ->
  realm (sync issues (realm (sync issues r))) = realm (sync issues r)
  /\ dom (realm (sync issues (realm (sync issues r)))) = dom (realm (sync issues r))
  /\ forall id,
      realm (sync issues (realm (sync issues r))) !! id = realm (sync issues r) !! id.
Proof.
  intros Hr.
  assert (H : realm (sync issues (realm (sync issues r))) = realm (sync issues r)).
  { apply map_eq. intros k.
    rewrite (refresh_lookup _ _ _ issues (realm (sync issues r)) k)
      by now apply refresh_keyed.
    rewrite (refresh_lookup _ _ _ issues r k Hr).
    destruct (latest k (processed issues)) as [issue|].
    - now rewrite put_put.
    - destruct (completes issues); [|reflexivity]. now destruct (r !! k). }
  rewrite H. auto.
Qed.

(** C2. On a table with the ids 1, 2 and 3, a run whose pages all arrive
    and hold the ids 1 and 3 leaves the three ids stored, 2 marked
    deleted, and 1 and 3 not deleted. *)
Theorem tombstone_reconciliation (issues : Issues) (r : Realm.t) :
  Realm.keyed r ->
  dom r = {[1; 2; 3]} ->
  completes issues = true ->
  (forall k, In k (List.map Issue.id (processed issues)) <-> k = 1 \/ k = 3) ->
  dom (realm (sync issues r)) = dom r
  /\ Task.isDeleted <$> realm (sync issues r) !! 2 = Some true
  /\ Task.isDeleted <$> realm (sync issues r) !! 1 = Some false
  /\ Task.isDeleted <$> realm (sync issues r) !! 3 = Some false.
Proof.
  intros Hr Hdom Hc Hids.
  assert (Hseen : forall k, In k (List.map Issue.id (processed issues)) ->
                            Task.isDeleted <$> realm (sync issues r) !! k = Some false).
  { intros k Hk. rewrite (refresh_lookup _ _ _ _ _ _ Hr).
    destruct (latest k (processed issues)) as [issue|] eqn:Hl.
    - cbn. now rewrite put_isDeleted.
    - now apply latest_None in Hl. }
  split; [|split; [|split]].
  - apply set_eq. intros k. rewrite !elem_of_dom, (refresh_lookup _ _ _ _ _ _ Hr), Hc.
    destruct (latest k (processed issues)) as [issue|] eqn:Hl.
    + split; [|eauto]. intros _. apply elem_of_dom. rewrite Hdom.
      apply latest_Some in Hl as [<- Hin].
      apply (in_map Issue.id), Hids in Hin.
      rewrite !elem_of_union, !elem_of_singleton. lia.
    + now rewrite fmap_is_Some.
  - rewrite (refresh_lookup _ _ _ _ _ _ Hr), Hc.
    replace (latest 2 (processed issues)) with (@None Issue.t).
    + assert (H2 : is_Some (r !! 2)).
      { apply elem_of_dom. rewrite Hdom, !elem_of_union, !elem_of_singleton. lia. }
      destruct H2 as [task ->]. reflexivity.
    + symmetry. apply latest_None. rewrite Hids. lia.
  - apply Hseen, Hids. now left.
  - apply Hseen, Hids. now right.
Qed.

(** A run keeps a table plain. *)
Lemma sync_plain (issues : Issues) (r : Realm.t) :
  Realm.keyed r -> Realm.plain r -> Realm.plain (realm (sync issues r)).
Proof.
  intros Hr Hp k task. rewrite (refresh_lookup _ _ _ _ _ _ Hr).
  destruct (latest k (processed issues)) as [issue|].
  - intros [= <-]. destruct (r !! k) as [old|] eqn:Hk; [|easy].
    exact (Hp _ _ Hk).
  - destruct (r !! k) as [old|] eqn:Hk.
    + destruct (completes issues); intros [= <-]; exact (Hp _ _ Hk).
    + now destruct (completes issues).
Qed.

(** C3. In a table as [processIssues] writes it, where [type], [parent],
    [level] and [open] are null, writing an issue whose id is stored
    replaces the object under that id: no id is added, the objects under
    other ids are as before, and the object is the one that a first write
    of the issue gives, whatever was stored: every property has the value
    of the issue, with [isDeleted] false. The table stays such a table.
    After a run, every id of a processed page is stored and not deleted,
    also when it was marked deleted before. *)
Theorem upsert_updates_in_place (issue : Issue.t) (run : Run) (idArray : list Z) (old : Task.t) :
  Realm.plain (realm run) ->
  realm run !! Issue.id issue = Some old ->
  dom (realm (fst (step (run, idArray) issue))) = dom (realm run)
  /\ size (realm (fst (step (run, idArray) issue))) = size (realm run)
  /\ (forall k, k <> Issue.id issue ->
                realm (fst (step (run, idArray) issue)) !! k = realm run !! k)
  /\ realm (fst (step (run, idArray) issue)) !! Issue.id issue
     = Some (Realm.fresh (values issue))
  /\ (Task.isDeleted (Realm.fresh (values issue)) = false
      /\ Task.id (Realm.fresh (values issue)) = Issue.id issue
      /\ Task.text (Realm.fresh (values issue))
         = utilities.sanitizeStringNonNull (Issue.title issue)
      /\ Task.body (Realm.fresh (values issue))
         = utilities.sanitizeStringNonNull (Issue.body issue)
      /\ Task.url (Realm.fresh (values issue))
         = utilities.sanitizeStringNonNull (Issue.url issue)
      /\ Task.html_url (Realm.fresh (values issue))
         = utilities.sanitizeStringNonNull (Issue.htmlUrl issue)
      /\ Task.number (Realm.fresh (values issue)) = Issue.number issue
      /\ Task.state (Realm.fresh (values issue)) = Issue.state issue
      /\ Task.duration (Realm.fresh (values issue)) = 1)
  /\ Realm.plain (realm (fst (step (run, idArray) issue)))
  /\ (forall issues r,
         Realm.keyed r -> In issue (processed issues) ->
         Task.isDeleted <$> realm (sync issues r) !! Issue.id issue = Some false).
Proof.
  intros Hplain Hold.
  assert (Hstep : realm (fst (step (run, idArray) issue))
                  = <[Issue.id issue := Realm.fresh (values issue)]> (realm run)).
  { cbn. rewrite create_put. change (TaskValues.id (values issue)) with (Issue.id issue).
    rewrite Hold. cbn [put]. destruct (Hplain _ _ Hold) as (Ht & Hp & Hl & Ho).
    unfold Realm.assign, Realm.fresh. now rewrite Ht, Hp, Hl, Ho. }
  rewrite Hstep.
  split; [|split; [|split; [|split; [|split; [|split]]]]].
  - apply set_eq. intros k. rewrite dom_insert_L, elem_of_union, elem_of_singleton.
    split; [intros [->|Hk]; [apply elem_of_dom; eauto | exact Hk] | auto].
  - apply map_size_insert_Some. eauto.
  - intros k Hk. now rewrite lookup_insert_ne.
  - apply lookup_insert_eq.
  - repeat split.
  - intros k task. rewrite lookup_insert. case_decide.
    + now intros [= <-].
    + apply Hplain.
  - intros issues r Hr Hin. rewrite (refresh_lookup _ _ _ _ _ _ Hr).
    destruct (latest (Issue.id issue) (processed issues)) as [later|] eqn:Hl.
    + cbn. now rewrite put_isDeleted.
    + apply latest_None in Hl. exfalso. apply Hl. now apply in_map.
Qed.

Lemma upserted_pageLog (issues : Issues) :
  List.filter isUpserted (pageLog issues) = upsertedAll (processed issues).
Proof.
  assert (Hu : forall l, List.filter isUpserted (upsertedAll l) = upsertedAll l).
  { unfold upsertedAll. induction l as [|i l IH]; [easy|]. cbn. now rewrite IH. }
  induction issues as [l|l url more IH|l url]; cbn [pageLog processed].
  - apply Hu.
  - rewrite List.filter_app. cbn [List.filter isUpserted]. rewrite IH, Hu.
    unfold upsertedAll. now rewrite List.map_app.
  - rewrite List.filter_app. cbn [List.filter isUpserted]. rewrite Hu.
    apply app_nil_r.
Qed.

(** C6. When every page arrives, the log of the run is the writes and
    fetches of all the pages, in order, then one pruning and the call of
    [completion]; the pruned ids are those that were stored and are on no
    page. When a page does not arrive, the run ends there without pruning
    and without calling [completion]: the Realm is the writes of the
    pages that arrived, and an object that is marked deleted was stored
    so before and is on none of these pages. *)
Theorem reconciliation_only_after_last_page (issues : Issues) (r : Realm.t) :
  Realm.keyed r ->
  (completes issues = true ->
   exists deletedIds,
     log (sync issues r) = pageLog issues ++ [Pruned deletedIds; CompletionCalled]
     /\ List.filter isUpserted (pageLog issues) = upsertedAll (processed issues)
     /\ List.filter isPruned (log (sync issues r)) = [Pruned deletedIds]
     /\ forall k,
         In k deletedIds
         <-> is_Some (r !! k) /\ ~ In k (List.map Issue.id (processed issues)))
  /\ (completes issues = false ->
      log (sync issues r) = pageLog issues
      /\ List.filter isPruned (log (sync issues r)) = []
      /\ List.filter isCompletion (log (sync issues r)) = []
      /\ realm (sync issues r) = upserts values (processed issues) r
      /\ forall k task,
          realm (sync issues r) !! k = Some task ->
          Task.isDeleted task = true ->
          ~ In k (List.map Issue.id (processed issues)) /\ r !! k = Some task).
Proof.
  intros Hr. pose proof (refresh_log config newDate sanitizeFloat issues r Hr) as Hlog.
  destruct (not_pruned_pageLog issues) as [Hp Hc].
  split; intros Hcomp; rewrite Hcomp in Hlog.
  - eexists. split; [exact Hlog|]. split; [apply upserted_pageLog|]. split.
    + rewrite Hlog, List.filter_app, Hp. reflexivity.
    + intros k.
      rewrite (deletedIds_In _ _ k (upserts_keyed _ _ _ _ _ Hr)), upserts_lookup.
      destruct (latest k (processed issues)) as [issue|] eqn:Hl; [|tauto].
      apply latest_Some in Hl as [<- Hin]. apply (in_map Issue.id) in Hin.
      split; intros [_ Hn]; contradiction.
  - rewrite app_nil_r in Hlog. rewrite Hlog, Hp, Hc.
    assert (Hrealm : realm (sync issues r) = upserts values (processed issues) r).
    { unfold refresh. rewrite processIssues_unfold. cbn [realm log default].
      now rewrite Hcomp. }
    do 3 (split; [reflexivity|]). split; [exact Hrealm|].
    intros k task Hk Hdel. rewrite Hrealm, upserts_lookup in Hk.
    destruct (latest k (processed issues)) as [issue|] eqn:Hl.
    + injection Hk as <-. rewrite put_isDeleted in Hdel. discriminate.
    + split; [now apply latest_None | exact Hk].
Qed.

End Claims.


(** C10, as the code has it. For an id that is not stored, the lookup
    gives [undefined] and the handler throws a [TypeError] when it reads
    [html_url]; the client gets the error answer of Express, and the Realm
    stays as it is. For a stored id the client gets the [html_url] of the
    task. *)
Theorem getIssueURL_of_unknown_and_known_id (taskId : Z) (r : Realm.t) :
  (r !! taskId = None ->
   Realm.objectForPrimaryKey r taskId = None
   /\ respond (getIssueURL taskId) r = (InternalServerError TypeError, r))
  /\ (forall task,
         r !! taskId = Some task ->
         respond (getIssueURL taskId) r = (Sent (Task.html_url task), r)).
Proof.
  unfold respond, getIssueURL, Realm.objectForPrimaryKey.
  split; [intros ->; auto | intros task ->; reflexivity].
Qed.

(** ** The claims on the sample data *)

Lemma dom_store123 : dom store123 = {[1; 2; 3]}.
Proof.
  unfold store123. rewrite !dom_insert_L, dom_empty_L.
  apply set_eq. intros k. rewrite !elem_of_union, !elem_of_singleton, elem_of_empty.
  tauto.
Qed.

Lemma sync_twice_is_sync_once_witness :
  realm (refresh sampleConfig sampleDate sampleFloat feed13
           (realm (refresh sampleConfig sampleDate sampleFloat feed13 store123)))
  = realm (refresh sampleConfig sampleDate sampleFloat feed13 store123).
Proof.
  exact (proj1 (sync_twice_is_sync_once sampleConfig sampleDate sampleFloat
                  feed13 store123 keyed_store123)).
Defined.

Lemma tombstone_reconciliation_witness :
  dom (realm (refresh sampleConfig sampleDate sampleFloat feed13 store123))
  = dom store123
  /\ Task.isDeleted
     <$> realm (refresh sampleConfig sampleDate sampleFloat feed13 store123) !! 2
     = Some true
  /\ Task.isDeleted
     <$> realm (refresh sampleConfig sampleDate sampleFloat feed13 store123) !! 1
     = Some false
  /\ Task.isDeleted
     <$> realm (refresh sampleConfig sampleDate sampleFloat feed13 store123) !! 3
     = Some false.
Proof.
  apply (tombstone_reconciliation sampleConfig sampleDate sampleFloat feed13 store123).
  - exact keyed_store123.
  - exact dom_store123.
  - reflexivity.
  - intros k. cbn. intuition lia.
Defined.

Lemma plain_storeWritten : Realm.plain storeWritten.
Proof.
  intros k task. unfold storeWritten. rewrite !lookup_insert.
  repeat case_decide; [now intros [= <-].. | now rewrite lookup_empty].
Qed.

Lemma keyed_storeWritten : Realm.keyed storeWritten.
Proof.
  unfold storeWritten. repeat apply keyed_insert; try reflexivity. apply keyed_empty.
Qed.

(** Issue 3 is written over the stored task 3, which was marked deleted:
    the object is the one of a first write, and it is not deleted. *)
Lemma upsert_updates_in_place_witness :
  size (realm (fst (processIssue sampleConfig sampleDate sampleFloat
                      (mkRun storeWritten [], [])
                      (sampleIssue 3 (Some bodyCRLF) None))))
  = size storeWritten
  /\ realm (fst (processIssue sampleConfig sampleDate sampleFloat
                   (mkRun storeWritten [], [])
                   (sampleIssue 3 (Some bodyCRLF) None))) !! 3
     = Some (Realm.fresh
               (taskValues sampleConfig sampleDate sampleFloat
                  (sampleIssue 3 (Some bodyCRLF) None)))
  /\ Task.isDeleted <$> storeWritten !! 3 = Some true
  /\ Task.isDeleted
     <$> realm (refresh sampleConfig sampleDate sampleFloat feed13 storeWritten) !! 3
     = Some false.
Proof.
  pose proof (upsert_updates_in_place sampleConfig sampleDate sampleFloat
                (sampleIssue 3 (Some bodyCRLF) None) (mkRun storeWritten []) []
                (sampleTask 3 true None) plain_storeWritten eq_refl)
    as (_ & Hsize & _ & Hget & _ & _ & Hrun).
  split; [exact Hsize | split; [exact Hget | split; [reflexivity|]]].
  apply (Hrun feed13 storeWritten keyed_storeWritten). right. now left.
Defined.

Lemma reconciliation_only_after_last_page_witness :
  (exists deletedIds,
      log (refresh sampleConfig sampleDate sampleFloat feed13 store123)
      = pageLog feed13 ++ [Pruned deletedIds; CompletionCalled]
      /\ forall k, In k deletedIds <-> k = 2)
  /\ log (refresh sampleConfig sampleDate sampleFloat feedBroken store123)
     = pageLog feedBroken
  /\ Task.isDeleted
     <$> realm (refresh sampleConfig sampleDate sampleFloat feedBroken store123) !! 2
     = Some false.
Proof.
  split; [|split].
  - destruct (proj1 (reconciliation_only_after_last_page
                       sampleConfig sampleDate sampleFloat feed13 store123
                       keyed_store123) eq_refl)
      as (deletedIds & Hlog & _ & _ & Hids).
    exists deletedIds. split; [exact Hlog|]. intros k. rewrite Hids.
    rewrite <- elem_of_dom, dom_store123, !elem_of_union, !elem_of_singleton.
    cbn. intuition lia.
  - exact (proj1 (proj2 (reconciliation_only_after_last_page
                           sampleConfig sampleDate sampleFloat feedBroken store123
                           keyed_store123) eq_refl)).
  - vm_compute. reflexivity.
Defined.


(** C10 fails as stated: 9 is not stored, and the handler does not give
    a result for it but throws. *)
Lemma getIssueURL_throws_on_unknown_id :
  getIssueURL 9 store123 = Throw TypeError
  /\ respond (getIssueURL 9) store123 = (InternalServerError TypeError, store123).
Proof. split; vm_compute; reflexivity. Qed.

Lemma getIssueURL_of_unknown_and_known_id_witness :
  respond (getIssueURL 9) store123 = (InternalServerError TypeError, store123)
  /\ respond (getIssueURL 2) store123
     = (Sent "https://github.com/o/r/issues/0", store123).
Proof.
  split.
  - exact (proj2 (proj1 (getIssueURL_of_unknown_and_known_id 9 store123) eq_refl)).
  - exact (proj2 (getIssueURL_of_unknown_and_known_id 2 store123)
                 (sampleTask 2 false None) eq_refl).
Defined.

(** * Further properties *)

(** ** Keywords: start date, progress, label *)

Section MoreKeywords.

Variable config : Config.
Variable newDate : string -> option Z.
Variable sanitizeFloat : string -> option float.

Local Abbreviation scan := (scanLine config newDate sanitizeFloat).
Local Abbreviation values := (taskValues config newDate sanitizeFloat).

Lemma scan_lines_startDate_miss (issue : Issue.t) (lines : list string) (v : Vars.t) :
  Forall (noDateAt newDate (START_DATE_STRING config)) lines ->
  Vars.startDate (fold_left (scan issue) lines v) = Vars.startDate v.
Proof.
  intros H. revert v. induction H as [|l lines Hl _ IH]; intros v; [reflexivity|].
  cbn [fold_left]. rewrite IH, scanLine_startDate.
  destruct Hl as [Hl|Hl].
  - now rewrite (indexOf_nonzero _ _ Hl).
  - rewrite Hl. now destruct (js_not _).
Qed.

Lemma scan_lines_progress_miss (issue : Issue.t) (lines : list string) (v : Vars.t) :
  Forall (fun l => JsString.indexOf l (PROGRESS_STRING config) <> 0) lines ->
  Vars.progress (fold_left (scan issue) lines v) = Vars.progress v.
Proof.
  intros H. revert v. induction H as [|l lines Hl _ IH]; intros v; [reflexivity|].
  cbn [fold_left]. now rewrite IH, scanLine_progress, (indexOf_nonzero _ _ Hl).
Qed.

Lemma scan_lines_label_miss (issue : Issue.t) (lines : list string) (v : Vars.t) :
  Forall (fun l => JsString.indexOf l (LABEL_STRING config) <> 0) lines ->
  Vars.label (fold_left (scan issue) lines v) = Vars.label v
  /\ Vars.color (fold_left (scan issue) lines v) = Vars.color v.
Proof.
  intros H. revert v. induction H as [|l lines Hl _ IH]; intros v; [easy|].
  cbn [fold_left]. destruct (IH (scan issue v l)) as [-> ->].
  apply scanLine_label_miss. now apply indexOf_nonzero.
Qed.

(** A line that starts with none of the keywords changes nothing. *)
Lemma scanLine_noKeyword (issue : Issue.t) (v : Vars.t) (line : string) :
  noKeywordAt config line -> scan issue v line = v.
Proof.
  intros (Hs & Hd & Hl & Hp). unfold scanLine.
  now rewrite (indexOf_nonzero _ _ Hs), (indexOf_nonzero _ _ Hd),
    (indexOf_nonzero _ _ Hl), (indexOf_nonzero _ _ Hp).
Qed.

(** X1. The start date of a task is the date of the last line of the
    body that starts with the start date keyword and has a valid date
    after it; a start date line without a valid date is passed over. When
    there is no such line, or no body, the start date is the creation
    date of the issue. *)
Theorem start_date_is_last_valid_line_or_createdAt (issue : Issue.t) :
  (forall body before rest after date,
      Issue.body issue = Some body ->
      JsString.split body CRLF
      = before ++ (START_DATE_STRING config +:+ rest) :: after ->
      newDate rest = Some date ->
      Forall (noDateAt newDate (START_DATE_STRING config)) after ->
      TaskValues.start_date (values issue) = date)
  /\ (forall body,
         Issue.body issue = Some body ->
         Forall (noDateAt newDate (START_DATE_STRING config)) (JsString.split body CRLF) ->
         TaskValues.start_date (values issue) = Issue.createdAt issue)
  /\ (Issue.body issue = None ->
      TaskValues.start_date (values issue) = Issue.createdAt issue).
Proof.
  unfold taskValues. cbn [TaskValues.start_date]. unfold findKeywords.
  split; [|split].
  - intros body before rest after date -> Hsplit Hdate Hafter.
    rewrite Hsplit, fold_left_app. cbn [fold_left].
    rewrite (scan_lines_startDate_miss _ _ _ Hafter), scanLine_startDate.
    rewrite (proj2 (not_indexOf_prefix _ _) (prefix_append _ _)).
    now rewrite replace_prefix, Hdate.
  - intros body -> Hall. now rewrite scan_lines_startDate_miss.
  - now intros ->.
Qed.

(** X2. The progress of a task is what [sanitizeFloat] gives for the
    last line of the body that starts with the progress keyword, also
    when that is null: unlike a date, a later progress line without a
    number takes an earlier progress away. Without such a line the
    progress is null. *)
Theorem progress_is_last_progress_line (issue : Issue.t) :
  (forall body before rest after,
      Issue.body issue = Some body ->
      JsString.split body CRLF
      = before ++ (PROGRESS_STRING config +:+ rest) :: after ->
      Forall (fun l => JsString.indexOf l (PROGRESS_STRING config) <> 0) after ->
      TaskValues.progress (values issue) = sanitizeFloat rest)
  /\ (forall body,
         Issue.body issue = Some body ->
         Forall (fun l => JsString.indexOf l (PROGRESS_STRING config) <> 0)
                (JsString.split body CRLF) ->
         TaskValues.progress (values issue) = None).
Proof.
  unfold taskValues. cbn [TaskValues.progress]. unfold findKeywords. split.
  - intros body before rest after -> Hsplit Hafter.
    rewrite Hsplit, fold_left_app. cbn [fold_left].
    rewrite (scan_lines_progress_miss _ _ _ Hafter), scanLine_progress.
    rewrite (proj2 (not_indexOf_prefix _ _) (prefix_append _ _)).
    now rewrite replace_prefix.
  - intros body -> Hall. now rewrite scan_lines_progress_miss.
Qed.

(** X3. A body without a line that starts with one of the four keywords,
    and a null body, give the defaults: the start date is the creation
    date, and end date, label, colour and progress are null. *)
Theorem no_keyword_line_gives_defaults (issue : Issue.t) :
  (Issue.body issue = None
   \/ exists body, Issue.body issue = Some body
                   /\ Forall (noKeywordAt config) (JsString.split body CRLF)) ->
  TaskValues.start_date (values issue) = Issue.createdAt issue
  /\ TaskValues.end_date (values issue) = None
  /\ TaskValues.label (values issue) = None
  /\ TaskValues.color (values issue) = None
  /\ TaskValues.progress (values issue) = None.
Proof.
  intros H.
  assert (Hv : findKeywords config newDate sanitizeFloat issue = initialVars issue).
  { unfold findKeywords. destruct H as [->|(body & -> & Hall)]; [reflexivity|].
    generalize (initialVars issue) as v.
    induction Hall as [|l lines Hl _ IH]; intros v; [reflexivity|].
    cbn [fold_left]. now rewrite (scanLine_noKeyword _ _ _ Hl). }
  unfold taskValues. cbn. now rewrite Hv.
Qed.

Lemma resolved_ext (issue : Issue.t) (v v' : Vars.t) :
  Vars.label v = Vars.label v' -> Vars.color v = Vars.color v' ->
  resolved issue v -> resolved issue v'.
Proof. unfold resolved. now intros <- <-. Qed.

Lemma matchLabels_resolved (issue : Issue.t) (labels : list Label.t) (s : string)
      (some : list Label.t) (v : Vars.t) :
  Issue.labels issue = Some labels ->
  (forall aLabel, In aLabel some -> In aLabel labels) ->
  resolved issue v -> resolved issue (fold_left (matchLabel s) some v).
Proof.
  intros Hlabels. revert v. induction some as [|a some IH]; intros v Hin Hv; [exact Hv|].
  cbn [fold_left]. apply IH; [intros b Hb; apply Hin; now right|].
  assert (Ha : In a labels) by (apply Hin; now left).
  destruct Hv as [Hl Hc]. unfold matchLabel.
  destruct (String.eqb _ _); [|now split].
  destruct (Label.color a) as [code|] eqn:Hcode; split; cbn.
  - intros n [= <-]. eauto.
  - intros c [= <-]. exists labels, a, code. auto.
  - intros n [= <-]. eauto.
  - exact Hc.
Qed.

Lemma matchLabels_ext (s : string) (labels : list Label.t) (v v' : Vars.t) :
  Vars.label v = Vars.label v' -> Vars.color v = Vars.color v' ->
  Vars.label (fold_left (matchLabel s) labels v)
  = Vars.label (fold_left (matchLabel s) labels v')
  /\ Vars.color (fold_left (matchLabel s) labels v)
     = Vars.color (fold_left (matchLabel s) labels v').
Proof.
  revert v v'. induction labels as [|a labels IH]; intros v v' Hl Hc; [easy|].
  cbn [fold_left]. apply IH; unfold matchLabel;
    destruct (String.eqb _ _); try destruct (Label.color a); cbn; congruence.
Qed.

Lemma scanLine_resolved (issue : Issue.t) (v : Vars.t) (line : string) :
  resolved issue v -> resolved issue (scan issue v line).
Proof.
  intros Hv. unfold scanLine, utilities.isString.
  destruct (Issue.labels issue) as [labels|] eqn:Hlabels;
    repeat match goal with
           | |- context [js_not ?x] => destruct (js_not x)
           | |- context [newDate ?x] => destruct (newDate x)
           end;
    try exact Hv;
    match goal with
    | |- context [fold_left (matchLabel ?s) ?l ?w] =>
        destruct (matchLabels_ext s l v w eq_refl eq_refl) as [H1 H2];
        apply (resolved_ext issue (fold_left (matchLabel s) l v));
        [exact H1 | exact H2 |];
        apply (matchLabels_resolved issue labels s labels v Hlabels (fun _ H => H) Hv)
    end.
Qed.

(** X4. The label of a task, when it has one, is the name of a label of
    the issue, and its colour, when it has one, is [#] followed by the
    colour of a label of the issue in upper case. An issue whose [labels]
    is not an array gives neither. *)
Theorem label_and_color_come_from_the_issue (issue : Issue.t) :
  (forall n,
      TaskValues.label (values issue) = Some n ->
      exists labels aLabel,
        Issue.labels issue = Some labels /\ In aLabel labels
        /\ Label.name aLabel = n)
  /\ (forall c,
         TaskValues.color (values issue) = Some c ->
         exists labels aLabel code,
           Issue.labels issue = Some labels /\ In aLabel labels
           /\ Label.color aLabel = Some code
           /\ c = "#" +:+ JsString.toUpperCase code)
  /\ (Issue.labels issue = None ->
      TaskValues.label (values issue) = None
      /\ TaskValues.color (values issue) = None).
Proof.
  assert (H : resolved issue (findKeywords config newDate sanitizeFloat issue)).
  { unfold findKeywords.
    assert (Hinit : resolved issue (initialVars issue)) by (split; discriminate).
    destruct (Issue.body issue) as [body|]; [|exact Hinit].
    revert Hinit. generalize (initialVars issue) as v.
    induction (JsString.split body CRLF) as [|l lines IH]; intros v Hv; [exact Hv|].
    cbn [fold_left]. apply IH. now apply scanLine_resolved. }
  unfold taskValues. cbn [TaskValues.label TaskValues.color].
  destruct H as [Hl Hc]. split; [exact Hl | split; [exact Hc|]].
  intros Hnone. split.
  - destruct (Vars.label _) as [n|] eqn:E; [|reflexivity].
    destruct (Hl n eq_refl) as (? & ? & ? & _). congruence.
  - destruct (Vars.color _) as [c|] eqn:E; [|reflexivity].
    destruct (Hc c eq_refl) as (? & ? & ? & ? & _). congruence.
Qed.

Lemma matchLabels_label_stays (s : string) (labels : list Label.t) (v : Vars.t) :
  Vars.label v = Some s -> Vars.label (fold_left (matchLabel s) labels v) = Some s.
Proof.
  revert v. induction labels as [|a labels IH]; intros v Hv; [exact Hv|].
  cbn [fold_left]. apply IH. unfold matchLabel.
  destruct (String.eqb_spec (Label.name a) s) as [->|]; [|exact Hv].
  now destruct (Label.color a).
Qed.

Lemma matchLabels_label_hit (s : string) (labels : list Label.t) (v : Vars.t) (a : Label.t) :
  In a labels -> Label.name a = s ->
  Vars.label (fold_left (matchLabel s) labels v) = Some s.
Proof.
  revert v. induction labels as [|b labels IH]; intros v Hin Hname; [destruct Hin|].
  cbn [fold_left]. destruct Hin as [->|Hin]; [|now apply IH].
  apply matchLabels_label_stays. unfold matchLabel.
  rewrite Hname, String.eqb_refl. now destruct (Label.color a).
Qed.

Lemma matchLabels_color_stays (s code : string) (labels : list Label.t) (v : Vars.t) :
  (forall b, In b labels -> Label.name b = s -> Label.color b = Some code) ->
  Vars.color v = Some ("#" +:+ JsString.toUpperCase code) ->
  Vars.color (fold_left (matchLabel s) labels v)
  = Some ("#" +:+ JsString.toUpperCase code).
Proof.
  revert v. induction labels as [|a labels IH]; intros v Hall Hv; [exact Hv|].
  cbn [fold_left]. apply IH; [intros b Hb; apply Hall; now right|].
  unfold matchLabel.
  destruct (String.eqb_spec (Label.name a) s) as [Hname|]; [|exact Hv].
  now rewrite (Hall a (or_introl eq_refl) Hname).
Qed.

Lemma matchLabels_color_hit (s code : string) (labels : list Label.t) (v : Vars.t) (a : Label.t) :
  In a labels -> Label.name a = s ->
  (forall b, In b labels -> Label.name b = s -> Label.color b = Some code) ->
  Vars.color (fold_left (matchLabel s) labels v)
  = Some ("#" +:+ JsString.toUpperCase code).
Proof.
  revert v. induction labels as [|b labels IH]; intros v Hin Hname Hall; [destruct Hin|].
  cbn [fold_left]. destruct Hin as [->|Hin].
  - apply matchLabels_color_stays; [intros c Hc; apply Hall; now right|].
    unfold matchLabel. rewrite Hname, String.eqb_refl.
    now rewrite (Hall a (or_introl eq_refl) Hname).
  - apply IH; [assumption | assumption | intros c Hc; apply Hall; now right].
Qed.

Lemma matchLabels_no_match (s : string) (labels : list Label.t) (v : Vars.t) :
  (forall b, In b labels -> Label.name b <> s) ->
  fold_left (matchLabel s) labels v = v.
Proof.
  revert v. induction labels as [|a labels IH]; intros v Hall; [reflexivity|].
  cbn [fold_left]. unfold matchLabel at 2.
  destruct (String.eqb_spec (Label.name a) s) as [Hname|].
  - now destruct (Hall a (or_introl eq_refl)).
  - apply IH. intros b Hb. apply Hall. now right.
Qed.

(** A label keyword line runs the loop over the labels on the text after
    the keyword, trimmed. *)
Lemma scanLine_label_hit (issue : Issue.t) (v : Vars.t) (rest : string) (labels : list Label.t) :
  Issue.labels issue = Some labels ->
  Vars.label (scan issue v (LABEL_STRING config +:+ rest))
  = Vars.label (fold_left (matchLabel (JsString.trim rest)) labels v)
  /\ Vars.color (scan issue v (LABEL_STRING config +:+ rest))
     = Vars.color (fold_left (matchLabel (JsString.trim rest)) labels v).
Proof.
  intros Hlabels. unfold scanLine, utilities.isString.
  rewrite (proj2 (not_indexOf_prefix _ (LABEL_STRING config)) (prefix_append _ _)).
  rewrite (replace_prefix (LABEL_STRING config)), Hlabels.
  repeat match goal with
         | |- context [js_not ?x] => destruct (js_not x)
         | |- context [newDate ?x] => destruct (newDate x)
         end;
    cbn; apply matchLabels_ext; reflexivity.
Qed.

(** X5. When the last line of the body that starts with the label
    keyword names, blanks around the name apart, a label of the issue,
    the task has that name as its label; and when the labels of that name
    have one colour, the task has it, in upper case after [#]. When no
    label keyword line names a label of the issue, label and colour are
    null. *)
Theorem label_line_selects_a_label_of_the_issue (issue : Issue.t) (labels : list Label.t) :
  Issue.labels issue = Some labels ->
  (forall body before rest after aLabel,
      Issue.body issue = Some body ->
      JsString.split body CRLF
      = before ++ (LABEL_STRING config +:+ rest) :: after ->
      Forall (fun l => JsString.indexOf l (LABEL_STRING config) <> 0) after ->
      In aLabel labels ->
      Label.name aLabel = JsString.trim rest ->
      TaskValues.label (values issue) = Some (JsString.trim rest)
      /\ forall code,
          (forall b, In b labels -> Label.name b = JsString.trim rest ->
                     Label.color b = Some code) ->
          TaskValues.color (values issue)
          = Some ("#" +:+ JsString.toUpperCase code))
  /\ (forall body,
         Issue.body issue = Some body ->
         Forall (fun l =>
                   JsString.indexOf l (LABEL_STRING config) <> 0
                   \/ forall b, In b labels ->
                                Label.name b
                                <> JsString.trim
                                     (JsString.replace l (LABEL_STRING config) ""))
                (JsString.split body CRLF) ->
         TaskValues.label (values issue) = None
         /\ TaskValues.color (values issue) = None).
Proof.
  intros Hlabels. unfold taskValues. cbn [TaskValues.label TaskValues.color].
  unfold findKeywords. split.
  - intros body before rest after aLabel -> Hsplit Hafter Hin Hname.
    rewrite Hsplit, fold_left_app. cbn [fold_left].
    destruct (scan_lines_label_miss issue after
                (scan issue (fold_left (scan issue) before (initialVars issue))
                      (LABEL_STRING config +:+ rest)) Hafter) as [-> ->].
    destruct (scanLine_label_hit issue
                (fold_left (scan issue) before (initialVars issue)) rest labels Hlabels)
      as [-> ->].
    split; [now apply (matchLabels_label_hit _ _ _ aLabel)|].
    intros code Hall. now apply (matchLabels_color_hit _ _ _ _ aLabel).
  - intros body -> Hall.
    assert (H : forall lines v,
               Forall (fun l =>
                         JsString.indexOf l (LABEL_STRING config) <> 0
                         \/ forall b, In b labels ->
                                      Label.name b
                                      <> JsString.trim
                                           (JsString.replace l (LABEL_STRING config) ""))
                      lines ->
               Vars.label (fold_left (scan issue) lines v) = Vars.label v
               /\ Vars.color (fold_left (scan issue) lines v) = Vars.color v).
    { intros lines v H. revert v. induction H as [|l lines Hl _ IH]; intros v; [easy|].
      cbn [fold_left]. destruct (IH (scan issue v l)) as [-> ->].
      destruct (js_not (JsString.indexOf l (LABEL_STRING config))) eqn:Hhit.
      - destruct Hl as [Hl|Hl]; [apply indexOf_nonzero in Hl; congruence|].
        apply not_indexOf_prefix, prefix_split in Hhit as [rest ->].
        rewrite replace_prefix in Hl.
        destruct (scanLine_label_hit issue v rest labels Hlabels) as [-> ->].
        now rewrite (matchLabels_no_match _ _ _ Hl).
      - now apply scanLine_label_miss. }
    exact (H _ _ Hall).
Qed.

End MoreKeywords.

(** ** The pairing of label and colour *)

Section LabelAndColor.

Variable config : Config.
Variable newDate : string -> option Z.
Variable sanitizeFloat : string -> option float.

Local Abbreviation scan := (scanLine config newDate sanitizeFloat).
Local Abbreviation values := (taskValues config newDate sanitizeFloat).

(** The loop over the labels keeps the pairing when the labels of the
    name at hand have a colour. *)
Lemma matchLabels_paired (colored : Prop) (s : string) (labels : list Label.t) (v : Vars.t) :
  (colored ->
   forall aLabel, In aLabel labels -> Label.name aLabel = s -> Label.color aLabel <> None) ->
  paired colored v -> paired colored (fold_left (matchLabel s) labels v).
Proof.
  revert v. induction labels as [|a labels IH]; intros v Hc Hv; [exact Hv|].
  cbn [fold_left]. apply IH.
  - intros C b Hb. apply (Hc C). now right.
  - unfold matchLabel.
    destruct (String.eqb_spec (Label.name a) s) as [Hname|]; [|exact Hv].
    destruct (Label.color a) eqn:Ha; split; cbn; try easy.
    intros C _. now destruct (Hc C a (or_introl eq_refl) Hname).
Qed.

Lemma scanLine_paired (issue : Issue.t) (body : string) (v : Vars.t) (line : string) :
  Issue.body issue = Some body ->
  In line (JsString.split body CRLF) ->
  paired (namedColored config issue) v ->
  paired (namedColored config issue) (scan issue v line).
Proof.
  intros Hbody Hin Hv. unfold scanLine, utilities.isString.
  destruct (Issue.labels issue) as [labels|] eqn:Hlabels;
    destruct (js_not (JsString.indexOf line (LABEL_STRING config))) eqn:Hhit;
    repeat match goal with
           | |- context [js_not ?x] => destruct (js_not x)
           | |- context [newDate ?x] => destruct (newDate x)
           end;
    try exact Hv;
    (apply matchLabels_paired; [|exact Hv]);
    intros C a Ha Hname;
    apply (C body labels line a Hbody Hlabels Hin); try assumption;
    now apply Z.eqb_eq.
Qed.

(** A label that has no colour leaves [color] as it is. *)
Lemma matchLabels_color_kept (s : string) (labels : list Label.t) (v : Vars.t) :
  (forall b, In b labels -> Label.name b = s -> Label.color b = None) ->
  Vars.color (fold_left (matchLabel s) labels v) = Vars.color v.
Proof.
  revert v. induction labels as [|a labels IH]; intros v Hall; [reflexivity|].
  cbn [fold_left]. rewrite IH by (intros b Hb; apply Hall; now right).
  unfold matchLabel.
  destruct (String.eqb_spec (Label.name a) s) as [Hname|]; [|reflexivity].
  now rewrite (Hall a (or_introl eq_refl) Hname).
Qed.

(** C4, as the code has it. [color] is never set without [label]. When
    every label of the issue that a label keyword line of the body names
    has a colour that is a string, a task with a label has a colour. A
    label keyword line that names a label of the issue without such a
    colour is honoured all the same: it sets [label] and leaves [color]
    as it was before the line, so that the task has the colour that the
    lines before it gave, or none. *)
Theorem label_and_color_pairing (issue : Issue.t) :
  (TaskValues.label (values issue) = None -> TaskValues.color (values issue) = None)
  /\ (namedColored config issue ->
      TaskValues.label (values issue) <> None ->
      TaskValues.color (values issue) <> None)
  /\ (forall labels v rest aLabel,
         Issue.labels issue = Some labels ->
         In aLabel labels ->
         Label.name aLabel = JsString.trim rest ->
         (forall b, In b labels -> Label.name b = JsString.trim rest ->
                    Label.color b = None) ->
         Vars.label (scan issue v (LABEL_STRING config +:+ rest))
         = Some (JsString.trim rest)
         /\ Vars.color (scan issue v (LABEL_STRING config +:+ rest)) = Vars.color v)
  /\ (forall body before rest after labels aLabel,
         Issue.body issue = Some body ->
         JsString.split body CRLF
         = before ++ (LABEL_STRING config +:+ rest) :: after ->
         Forall (fun l => JsString.indexOf l (LABEL_STRING config) <> 0) after ->
         Issue.labels issue = Some labels ->
         In aLabel labels ->
         Label.name aLabel = JsString.trim rest ->
         (forall b, In b labels -> Label.name b = JsString.trim rest ->
                    Label.color b = None) ->
         TaskValues.label (values issue) = Some (JsString.trim rest)
         /\ TaskValues.color (values issue)
            = Vars.color (fold_left (scan issue) before (initialVars issue))).
Proof.
  assert (Hline : forall labels v rest aLabel,
             Issue.labels issue = Some labels ->
             In aLabel labels ->
             Label.name aLabel = JsString.trim rest ->
             (forall b, In b labels -> Label.name b = JsString.trim rest ->
                        Label.color b = None) ->
             Vars.label (scan issue v (LABEL_STRING config +:+ rest))
             = Some (JsString.trim rest)
             /\ Vars.color (scan issue v (LABEL_STRING config +:+ rest)) = Vars.color v).
  { intros labels v rest aLabel Hlabels Hin Hname Hnone.
    destruct (scanLine_label_hit config newDate sanitizeFloat issue v rest labels Hlabels)
      as [-> ->].
    split; [now apply (matchLabels_label_hit _ _ _ aLabel)|].
    now apply matchLabels_color_kept. }
  assert (H : paired (namedColored config issue)
                     (findKeywords config newDate sanitizeFloat issue)).
  { unfold findKeywords. destruct (Issue.body issue) as [body|] eqn:Hbody; [|easy].
    assert (Hinit : paired (namedColored config issue) (initialVars issue)) by easy.
    assert (Hfold : forall lines v,
               (forall l, In l lines -> In l (JsString.split body CRLF)) ->
               paired (namedColored config issue) v ->
               paired (namedColored config issue) (fold_left (scan issue) lines v)).
    { induction lines as [|l lines IH]; intros v Hsub Hv; [exact Hv|].
      cbn [fold_left]. apply IH; [intros l' Hl'; apply Hsub; now right|].
      apply (scanLine_paired issue body); [exact Hbody | apply Hsub; now left | exact Hv]. }
    now apply Hfold. }
  destruct H as [Ha Hb].
  split; [exact Ha | split; [exact Hb | split; [exact Hline|]]].
  intros body before rest after labels aLabel Hbody Hsplit Hafter Hlabels Hin Hname Hnone.
  unfold taskValues. cbn [TaskValues.label TaskValues.color]. unfold findKeywords.
  rewrite Hbody, Hsplit, fold_left_app. cbn [fold_left].
  destruct (scan_lines_label_miss config newDate sanitizeFloat issue after
              (scan issue (fold_left (scan issue) before (initialVars issue))
                    (LABEL_STRING config +:+ rest)) Hafter) as [-> ->].
  exact (Hline labels _ rest aLabel Hlabels Hin Hname Hnone).
Qed.

End LabelAndColor.

(** The issue [staleIssue] names first the coloured label [bug], then the
    label [wontfix] without colour: the task has the label [wontfix] and
    the colour of [bug]. In [namedIssue] the label without colour is not
    named, and the task has label and colour. *)
Lemma label_and_color_pairing_witness :
  (TaskValues.label (taskValues sampleConfig sampleDate sampleFloat staleIssue)
   = Some "wontfix"
   /\ TaskValues.color (taskValues sampleConfig sampleDate sampleFloat staleIssue)
      = Some "#FC2929")
  /\ namedColored sampleConfig namedIssue
  /\ TaskValues.label (taskValues sampleConfig sampleDate sampleFloat namedIssue)
     <> None
  /\ TaskValues.color (taskValues sampleConfig sampleDate sampleFloat namedIssue)
     <> None.
Proof.
  assert (Hn : namedColored sampleConfig namedIssue).
  { intros body labels line a [= <-] [= <-] [<-|[]] _ [<-|[<-|[]]] Hname.
    - discriminate.
    - vm_compute in Hname. discriminate. }
  assert (Hl : TaskValues.label
                 (taskValues sampleConfig sampleDate sampleFloat namedIssue)
               <> None) by (vm_compute; discriminate).
  split; [|split; [exact Hn | split; [exact Hl|]]].
  - apply (proj2 (proj2 (proj2 (label_and_color_pairing
                                  sampleConfig sampleDate sampleFloat staleIssue)))
                 bodyStale ["Label: bug"] "wontfix" []
                 [Label.mk "bug" (Some "fc2929"); Label.mk "wontfix" None]
                 (Label.mk "wontfix" None));
      [reflexivity | reflexivity | constructor | reflexivity
       | right; left; reflexivity | reflexivity |].
    intros b [<-|[<-|[]]]; [discriminate | reflexivity].
  - exact (proj1 (proj2 (label_and_color_pairing
                           sampleConfig sampleDate sampleFloat namedIssue)) Hn Hl).
Defined.

(** ** Runs, the chart data and the routes *)

Lemma put_state (v : TaskValues.t) (stored : option Task.t) :
  Task.state (put v stored) = TaskValues.state v.
Proof. now destruct stored. Qed.

Lemma put_end_date (v : TaskValues.t) (stored : option Task.t) :
  Task.end_date (put v stored) = TaskValues.end_date v.
Proof. now destruct stored. Qed.

Lemma put_html_url (v : TaskValues.t) (stored : option Task.t) :
  Task.html_url (put v stored) = TaskValues.html_url v.
Proof. now destruct stored. Qed.

(** The last issue with an id is the one after which the id does not come
    again. *)
Lemma latest_last_occurrence (before after : list Issue.t) (issue : Issue.t) :
  ~ In (Issue.id issue) (List.map Issue.id after) ->
  latest (Issue.id issue) (before ++ issue :: after) = Some issue.
Proof.
  intros Hafter. induction before as [|b before IH].
  - cbn [app latest]. apply latest_None in Hafter. rewrite Hafter.
    now rewrite Z.eqb_refl.
  - cbn [app latest]. now rewrite IH.
Qed.

Lemma filter_none {A} (f : A -> bool) (l : list A) :
  (forall x, In x l -> f x = false) -> List.filter f l = [].
Proof.
  induction l as [|x l IH]; intros H; [reflexivity|]. cbn [List.filter].
  rewrite (H x (or_introl eq_refl)). apply IH. intros y Hy. apply H. now right.
Qed.

Lemma filter_nil_existsb {A} (f : A -> bool) (l : list A) :
  List.filter f l = [] -> existsb f l = false.
Proof.
  induction l as [|x l IH]; [reflexivity|]. cbn [List.filter existsb].
  destruct (f x); [discriminate | exact IH].
Qed.

Lemma chartTasks_In (r : Realm.t) (task : Task.t) :
  In task (chartTasks r) <-> In task (Realm.objects r) /\ chartFilter task = true.
Proof.
  unfold chartTasks, Realm.filtered. rewrite <- filter_In. split; intros H.
  - eapply Permutation_in; [|exact H]. now rewrite !sorted_perm.
  - eapply Permutation_in; [|exact H]. now rewrite !sorted_perm.
Qed.

(** On a table with the invariant, the ids of the objects are the keys,
    each once. *)
Lemma objects_ids_NoDup (r : Realm.t) :
  Realm.keyed r -> List.NoDup (List.map Task.id (Realm.objects r)).
Proof.
  intros Hr. unfold Realm.objects. rewrite List.map_map.
  assert (Hfst : List.map (fun p => Task.id (snd p)) (map_to_list r)
                 = List.map fst (map_to_list r)).
  { apply List.map_ext_in. intros [k task] Hin. cbn.
    apply Hr. now apply elem_of_map_to_list, list_elem_of_In. }
  rewrite Hfst. apply NoDup_ListNoDup. exact (NoDup_fst_map_to_list r).
Qed.

Lemma NoDup_map_filter {A B} (g : A -> B) (f : A -> bool) (l : list A) :
  List.NoDup (List.map g l) -> List.NoDup (List.map g (List.filter f l)).
Proof.
  induction l as [|x l IH]; cbn [List.map List.filter]; intros H; [constructor|].
  inversion H as [|? ? Hx Hl]; subst. destruct (f x); [|now apply IH].
  cbn [List.map]. constructor; [|now apply IH].
  intros Hin. apply Hx. apply in_map_iff in Hin as (y & Hy & Hin).
  apply in_map_iff. exists y. split; [exact Hy|]. now apply filter_In in Hin.
Qed.

Section MoreRuns.

Variable config : Config.
Variable newDate : string -> option Z.
Variable sanitizeFloat : string -> option float.
Variable dateFormat : option Z -> string -> string.

Local Abbreviation values := (taskValues config newDate sanitizeFloat).
Local Abbreviation sync := (refresh config newDate sanitizeFloat).
Local Abbreviation lookup_after := (refresh_lookup config newDate sanitizeFloat).

(** X6. A run removes no object: the ids stored after it are the ids
    stored before and the ids of the issues it went through, so the table
    does not shrink. *)
Theorem sync_never_removes_an_id (issues : Issues) (r : Realm.t) :
  Realm.keyed r ->
  (forall k,
      k ∈ dom (realm (sync issues r))
      <-> k ∈ dom r \/ In k (List.map Issue.id (processed issues)))
  /\ (size r <= size (realm (sync issues r)))%nat.
Proof.
  intros Hr.
  assert (H : forall k,
             k ∈ dom (realm (sync issues r))
             <-> k ∈ dom r \/ In k (List.map Issue.id (processed issues))).
  { intros k. rewrite !elem_of_dom, (lookup_after _ _ _ Hr).
    destruct (latest k (processed issues)) as [issue|] eqn:Hl.
    - apply latest_Some in Hl as [<- Hin]. apply (in_map Issue.id) in Hin.
      split; [auto | eauto].
    - apply latest_None in Hl.
      destruct (completes issues); rewrite ?fmap_is_Some; tauto. }
  split; [exact H|].
  apply dom_subseteq_size. intros k Hk. apply H. now left.
Qed.

(** X7. After a run, the object under the id of a processed issue has
    the values of the last issue with that id: when an id comes several
    times in the feed, the last one shows. An object whose id is on no
    processed page is as before when a page did not arrive, and as before
    but for [isDeleted] when all pages arrived. *)
Theorem sync_stores_the_last_occurrence (issues : Issues) (r : Realm.t) :
  Realm.keyed r ->
  (forall before issue after,
      processed issues = before ++ issue :: after ->
      ~ In (Issue.id issue) (List.map Issue.id after) ->
      realm (sync issues r) !! Issue.id issue
      = Some (put (values issue) (r !! Issue.id issue)))
  /\ (forall k,
         ~ In k (List.map Issue.id (processed issues)) ->
         realm (sync issues r) !! k
         = if completes issues then Task.set_isDeleted true <$> r !! k else r !! k).
Proof.
  intros Hr. split.
  - intros before issue after Hsplit Hafter.
    now rewrite (lookup_after _ _ _ Hr), Hsplit, (latest_last_occurrence _ _ _ Hafter).
  - intros k Hk. apply latest_None in Hk. now rewrite (lookup_after _ _ _ Hr), Hk.
Qed.

(** X8. A run over a feed without issues whose pages all arrive marks
    every stored object as deleted and changes nothing else; the chart
    data is empty afterwards. *)
Theorem sync_of_empty_feed_marks_everything (issues : Issues) (r : Realm.t) :
  Realm.keyed r ->
  completes issues = true ->
  processed issues = [] ->
  (forall k, realm (sync issues r) !! k = Task.set_isDeleted true <$> r !! k)
  /\ getTaskChartData dateFormat (realm (sync issues r)) = [].
Proof.
  intros Hr Hc Hp.
  assert (H : forall k, realm (sync issues r) !! k = Task.set_isDeleted true <$> r !! k).
  { intros k. now rewrite (lookup_after _ _ _ Hr), Hp, Hc. }
  split; [exact H|].
  unfold getTaskChartData, chartTasks, Realm.filtered.
  rewrite filter_none; [reflexivity|].
  intros task Hin. apply objects_In in Hin as [k Hk]. rewrite H in Hk.
  destruct (r !! k) as [old|]; [|discriminate]. now injection Hk as <-.
Qed.

(** X9. A run keeps the table well formed: the primary key of every
    object is its [id]; and it sets none of [type], [parent], [level] and
    [open]: where they were null before the run they are null after it,
    also in the objects that the run creates. *)
Theorem sync_keeps_the_table_well_formed (issues : Issues) (r : Realm.t) :
  Realm.keyed r ->
  Realm.keyed (realm (sync issues r))
  /\ (Realm.plain r -> Realm.plain (realm (sync issues r))).
Proof.
  intros Hr. split.
  - now apply refresh_keyed.
  - now apply sync_plain.
Qed.

(** X10. After a run, [/getIssueURL] gives for the id of a processed
    issue the [htmlUrl] of the last issue with that id, or the empty
    string when that is null. For an id that was stored and is on no
    processed page it still gives the stored [html_url]: being marked
    deleted does not hide a task from this route. *)
Theorem getIssueURL_after_sync (issues : Issues) (r : Realm.t) :
  Realm.keyed r ->
  (forall k issue,
      latest k (processed issues) = Some issue ->
      getIssueURL k (realm (sync issues r))
      = Normal (utilities.sanitizeStringNonNull (Issue.htmlUrl issue)))
  /\ (forall k old,
         ~ In k (List.map Issue.id (processed issues)) ->
         r !! k = Some old ->
         getIssueURL k (realm (sync issues r)) = Normal (Task.html_url old)).
Proof.
  intros Hr. unfold getIssueURL, Realm.objectForPrimaryKey. split.
  - intros k issue Hl. rewrite (lookup_after _ _ _ Hr), Hl.
    now rewrite put_html_url.
  - intros k old Hk Hold. apply latest_None in Hk.
    rewrite (lookup_after _ _ _ Hr), Hk, Hold. now destruct (completes issues).
Qed.

Lemma completionCalled_sync (issues : Issues) (r : Realm.t) :
  Realm.keyed r -> completionCalled (sync issues r) = completes issues.
Proof.
  intros Hr. unfold completionCalled.
  rewrite (refresh_log config newDate sanitizeFloat issues r Hr), existsb_app.
  rewrite (filter_nil_existsb _ _ (proj2 (not_pruned_pageLog issues))).
  now destruct (completes issues).
Qed.

(** X11. [/refreshData] answers exactly when the first page and every
    further page arrive, and then with the chart data of the Realm after
    the run. When the first fetch is rejected the Realm is untouched and
    nothing is sent; when a later fetch is rejected the writes of the
    pages before it stay and nothing is sent. *)
Theorem refreshData_answers_when_all_pages_arrive (issues : Issues) (r : Realm.t) :
  Realm.keyed r ->
  refreshData config newDate sanitizeFloat dateFormat None r = (None, r)
  /\ refreshData config newDate sanitizeFloat dateFormat (Some issues) r
     = (if completes issues
        then Some (getTaskChartData dateFormat (realm (sync issues r)))
        else None,
        realm (sync issues r))
  /\ (completes issues = false ->
      realm (sync issues r) = upserts values (processed issues) r).
Proof.
  intros Hr. split; [reflexivity|]. split.
  - unfold refreshData. now rewrite completionCalled_sync.
  - intros Hc. unfold refresh. rewrite processIssues_unfold. cbn [realm log default].
    now rewrite Hc.
Qed.

(** X12. After a run whose pages all arrive, the chart data has a row
    for an id exactly when the last issue with that id in the feed is
    open and has a due date: a task that is not in the feed, a closed
    issue and an issue without due date have no row. *)
Theorem chart_after_sync_shows_open_dated_issues (issues : Issues) (r : Realm.t) :
  Realm.keyed r ->
  completes issues = true ->
  forall k,
    In k (List.map ChartRow.id (getTaskChartData dateFormat (realm (sync issues r))))
    <-> exists issue,
        latest k (processed issues) = Some issue
        /\ Issue.state issue = "open"
        /\ TaskValues.end_date (values issue) <> None.
Proof.
  intros Hr Hc k.
  pose proof (refresh_keyed config newDate sanitizeFloat issues r Hr) as Hr'.
  unfold getTaskChartData. rewrite List.map_map. cbn [formattedTask ChartRow.id].
  rewrite in_map_iff. split.
  - intros (task & Hid & Hin). apply chartTasks_In in Hin as [Hin Hf].
    apply objects_In in Hin as [k' Hk']. rewrite <- (Hr' _ _ Hk'), Hid in Hk'.
    rewrite (lookup_after _ _ _ Hr), Hc in Hk'.
    apply chartFilter_true in Hf as (Hdel & Hstate & Hend).
    destruct (latest k (processed issues)) as [issue|].
    + injection Hk' as <-. exists issue.
      rewrite put_state in Hstate. rewrite put_end_date in Hend. auto.
    + destruct (r !! k) as [old|]; [|discriminate]. injection Hk' as <-.
      discriminate.
  - intros (issue & Hl & Hstate & Hend).
    exists (put (values issue) (r !! k)). split.
    + rewrite put_id. now apply latest_Some in Hl as [<- _].
    + apply chartTasks_In. split.
      * apply objects_In. exists k. now rewrite (lookup_after _ _ _ Hr), Hl.
      * apply chartFilter_true.
        now rewrite put_isDeleted, put_state, put_end_date.
Qed.

(** X13. The chart data has one row for each stored task that is not
    deleted, is open and has an end date, and no other row: the ids of
    the rows are the ids of the tasks in the order of C5, no id comes
    twice, there are at most as many rows as stored tasks, and every row
    is the formatted task stored under its id. *)
Theorem chart_rows_are_the_chart_tasks (r : Realm.t) :
  Realm.keyed r ->
  List.map ChartRow.id (getTaskChartData dateFormat r)
  = List.map Task.id (chartTasks r)
  /\ List.NoDup (List.map ChartRow.id (getTaskChartData dateFormat r))
  /\ (List.length (getTaskChartData dateFormat r)
      = List.length (List.filter chartFilter (Realm.objects r)))
  /\ (List.length (getTaskChartData dateFormat r) <= size r)%nat
  /\ forall row,
      In row (getTaskChartData dateFormat r) ->
      exists task,
        r !! ChartRow.id row = Some task
        /\ chartFilter task = true
        /\ row = formattedTask dateFormat task.
Proof.
  intros Hr.
  assert (Hperm : Permutation (chartTasks r) (List.filter chartFilter (Realm.objects r))).
  { unfold chartTasks, Realm.filtered. now rewrite !sorted_perm. }
  assert (Hids : List.map ChartRow.id (getTaskChartData dateFormat r)
                 = List.map Task.id (chartTasks r)).
  { unfold getTaskChartData. now rewrite List.map_map. }
  assert (Hlen : List.length (getTaskChartData dateFormat r)
                 = List.length (List.filter chartFilter (Realm.objects r))).
  { unfold getTaskChartData. rewrite List.length_map.
    now apply Permutation_length. }
  split; [exact Hids | split; [|split; [exact Hlen | split]]].
  - rewrite Hids.
    apply (Permutation_NoDup (Permutation_sym (Permutation_map Task.id Hperm))).
    apply NoDup_map_filter. now apply objects_ids_NoDup.
  - rewrite Hlen. etransitivity; [apply List.filter_length_le|].
    unfold Realm.objects. now rewrite List.length_map, length_map_to_list.
  - intros row Hin. unfold getTaskChartData in Hin.
    apply in_map_iff in Hin as (task & <- & Hin).
    apply chartTasks_In in Hin as [Hin Hf]. apply objects_In in Hin as [k Hk].
    exists task. cbn [formattedTask ChartRow.id].
    rewrite (Hr _ _ Hk). auto.
Qed.

Lemma latest_In_NoDup (l : list Issue.t) (issue : Issue.t) :
  List.NoDup (List.map Issue.id l) -> In issue l ->
  latest (Issue.id issue) l = Some issue.
Proof.
  intros Hnd Hin. apply in_split in Hin as (before & after & ->).
  apply latest_last_occurrence.
  rewrite List.map_app in Hnd. cbn [List.map] in Hnd.
  apply List.NoDup_remove_2 in Hnd. intros H. apply Hnd, in_or_app. now right.
Qed.

(** X14. The first write of an issue whose id is not stored adds one
    object under that id, with the values of the issue, not deleted, and
    with [type], [parent], [level] and [open] null; the other objects are
    as before. *)
Theorem first_upsert_creates_the_task (issue : Issue.t) (run : Run) (idArray : list Z) :
  realm run !! Issue.id issue = None ->
  size (realm (fst (processIssue config newDate sanitizeFloat (run, idArray) issue)))
  = S (size (realm run))
  /\ realm (fst (processIssue config newDate sanitizeFloat (run, idArray) issue))
     !! Issue.id issue
     = Some (Realm.fresh (values issue))
  /\ Task.isDeleted (Realm.fresh (values issue)) = false
  /\ (Task.type (Realm.fresh (values issue)) = None
      /\ Task.parent (Realm.fresh (values issue)) = None
      /\ Task.level (Realm.fresh (values issue)) = None
      /\ Task.open (Realm.fresh (values issue)) = None)
  /\ (forall k, k <> Issue.id issue ->
                realm (fst (processIssue config newDate sanitizeFloat (run, idArray) issue))
                !! k
                = realm run !! k)
  /\ snd (processIssue config newDate sanitizeFloat (run, idArray) issue)
     = idArray ++ [Issue.id issue].
Proof.
  intros Hnone.
  assert (Hstep : realm (fst (processIssue config newDate sanitizeFloat (run, idArray) issue))
                  = <[Issue.id issue := Realm.fresh (values issue)]> (realm run)).
  { cbn. rewrite create_put. change (TaskValues.id (values issue)) with (Issue.id issue).
    now rewrite Hnone. }
  rewrite Hstep. split; [now apply map_size_insert_None|].
  split; [apply lookup_insert_eq|]. split; [reflexivity|]. split; [easy|].
  split; [|reflexivity]. intros k Hk. now rewrite lookup_insert_ne.
Qed.

(** X15. When no id comes twice, the Realm after a run does not depend
    on the order of the issues nor on how they are cut into pages: two
    feeds with the same issues, both arriving in full or both not, leave
    the same Realm. *)
Theorem sync_does_not_depend_on_order_or_paging (issues issues' : Issues) (r : Realm.t) :
  Realm.keyed r ->
  List.NoDup (List.map Issue.id (processed issues)) ->
  Permutation (processed issues) (processed issues') ->
  completes issues = completes issues' ->
  realm (sync issues r) = realm (sync issues' r).
Proof.
  intros Hr Hnd Hperm Hc. apply map_eq. intros k.
  rewrite !(lookup_after _ _ _ Hr), <- Hc.
  assert (Hnd' : List.NoDup (List.map Issue.id (processed issues')))
    by (eapply Permutation_NoDup; [apply Permutation_map, Hperm | exact Hnd]).
  destruct (latest k (processed issues)) as [issue|] eqn:Hl.
  - apply latest_Some in Hl as [<- Hin].
    now rewrite (latest_In_NoDup _ _ Hnd' (Permutation_in _ Hperm Hin)).
  - replace (latest k (processed issues')) with (@None Issue.t); [reflexivity|].
    symmetry. apply latest_None. apply latest_None in Hl. intros Hin. apply Hl.
    eapply Permutation_in; [apply Permutation_map, Permutation_sym, Hperm | exact Hin].
Qed.

End MoreRuns.

(** X16. The write that marks the deleted issues depends on which ids
    are listed only: two lists of stored ids with the same members, in
    any order and with or without repetitions, leave the same Realm; and
    marking a second time changes nothing. *)
Theorem markDeleted_depends_on_the_listed_ids_only (ids ids' : list Z) (r : Realm.t) :
  (forall k, In k ids -> is_Some (r !! k)) ->
  (forall k, In k ids <-> In k ids') ->
  exists r',
    Realm.write (markDeleted ids) r = (Normal tt, r')
    /\ Realm.write (markDeleted ids') r = (Normal tt, r')
    /\ Realm.write (markDeleted ids) r' = (Normal tt, r').
Proof.
  intros Hall Hsame.
  destruct (markDeleted_present ids r Hall) as (r1 & Hrun1 & Hget1).
  destruct (markDeleted_present ids' r) as (r2 & Hrun2 & Hget2).
  { intros k Hk. apply Hall, Hsame, Hk. }
  destruct (markDeleted_present ids r1) as (r3 & Hrun3 & Hget3).
  { intros k Hk. rewrite (proj1 (Hget1 k) Hk). apply fmap_is_Some. now apply Hall. }
  assert (H12 : r2 = r1).
  { apply map_eq. intros k. destruct (in_dec Z.eq_dec k ids) as [Hin|Hout].
    - now rewrite (proj1 (Hget1 k) Hin), (proj1 (Hget2 k) (proj1 (Hsame k) Hin)).
    - rewrite (proj2 (Hget1 k) Hout). apply (proj2 (Hget2 k)).
      intros H. apply Hout, Hsame, H. }
  assert (H13 : r3 = r1).
  { apply map_eq. intros k. destruct (in_dec Z.eq_dec k ids) as [Hin|Hout].
    - rewrite (proj1 (Hget3 k) Hin), (proj1 (Hget1 k) Hin). now destruct (r !! k).
    - apply (proj2 (Hget3 k) Hout). }
  exists r1. unfold Realm.write. rewrite Hrun1, Hrun2, Hrun3, H12, H13. auto.
Qed.

(** ** The further properties on the sample data *)

Lemma keyed_chartStore : Realm.keyed chartStore.
Proof. unfold chartStore. repeat apply keyed_insert; try reflexivity. apply keyed_empty. Qed.

Lemma start_date_is_last_valid_line_or_createdAt_witness :
  TaskValues.start_date (taskValues sampleConfig sampleDate sampleFloat keywordIssue)
  = 1488326400000
  /\ TaskValues.start_date
       (taskValues sampleConfig sampleDate sampleFloat (sampleIssue 7 None None))
     = 1488000000000.
Proof.
  split.
  - apply (proj1 (start_date_is_last_valid_line_or_createdAt
                    sampleConfig sampleDate sampleFloat keywordIssue)
                 bodyKeywords [] "2017-03-01"
                 ["Start Date: soon"; "Progress: 0.5"; "Progress: half"; "Label:   bug  "]);
      [reflexivity | reflexivity | reflexivity |].
    constructor; [right; reflexivity|].
    repeat (constructor; [left; vm_compute; discriminate|]). constructor.
  - apply (proj2 (proj2 (start_date_is_last_valid_line_or_createdAt
                           sampleConfig sampleDate sampleFloat (sampleIssue 7 None None)))).
    reflexivity.
Defined.

Lemma progress_is_last_progress_line_witness :
  TaskValues.progress (taskValues sampleConfig sampleDate sampleFloat keywordIssue)
  = None
  /\ sampleFloat "0.5" = Some 0.5%float.
Proof.
  split; [|reflexivity].
  apply (proj1 (progress_is_last_progress_line
                  sampleConfig sampleDate sampleFloat keywordIssue)
               bodyKeywords
               ["Start Date: 2017-03-01"; "Start Date: soon"; "Progress: 0.5"]
               "half" ["Label:   bug  "]);
    [reflexivity | reflexivity |].
  constructor; [vm_compute; discriminate | constructor].
Defined.

Lemma no_keyword_line_gives_defaults_witness :
  TaskValues.start_date
    (taskValues sampleConfig sampleDate sampleFloat (sampleIssue 7 (Some "Plan") None))
  = 1488000000000
  /\ TaskValues.end_date
       (taskValues sampleConfig sampleDate sampleFloat (sampleIssue 7 (Some "Plan") None))
     = None.
Proof.
  destruct (no_keyword_line_gives_defaults sampleConfig sampleDate sampleFloat
              (sampleIssue 7 (Some "Plan") None)) as (Hs & He & _).
  - right. exists "Plan". split; [reflexivity|].
    constructor; [|constructor]. repeat split; vm_compute; discriminate.
  - split; [exact Hs | exact He].
Defined.

Lemma label_and_color_come_from_the_issue_witness :
  exists labels aLabel,
    Issue.labels keywordIssue = Some labels /\ In aLabel labels
    /\ Label.name aLabel = "bug".
Proof.
  apply (proj1 (label_and_color_come_from_the_issue
                  sampleConfig sampleDate sampleFloat keywordIssue) "bug").
  vm_compute. reflexivity.
Defined.

Lemma label_line_selects_a_label_of_the_issue_witness :
  TaskValues.label (taskValues sampleConfig sampleDate sampleFloat keywordIssue)
  = Some "bug"
  /\ TaskValues.color (taskValues sampleConfig sampleDate sampleFloat keywordIssue)
     = Some "#FC2929".
Proof.
  destruct (proj1 (label_line_selects_a_label_of_the_issue
                     sampleConfig sampleDate sampleFloat keywordIssue
                     [Label.mk "feature" (Some "00ff00"); Label.mk "bug" (Some "fc2929")]
                     eq_refl)
                  bodyKeywords
                  ["Start Date: 2017-03-01"; "Start Date: soon"; "Progress: 0.5";
                   "Progress: half"]
                  "  bug  " [] (Label.mk "bug" (Some "fc2929"))
                  eq_refl eq_refl (List.Forall_nil _) (or_intror (or_introl eq_refl)) eq_refl)
    as [Hl Hc].
  split; [exact Hl|]. apply (Hc "fc2929").
  intros b [<-|[<-|[]]]; [discriminate | reflexivity].
Defined.

Lemma sync_never_removes_an_id_witness :
  (forall k,
      k ∈ dom (realm (refresh sampleConfig sampleDate sampleFloat feed13 store123))
      <-> k ∈ dom store123
          \/ In k (List.map Issue.id (processed feed13)))
  /\ (size store123
      <= size (realm (refresh sampleConfig sampleDate sampleFloat feed13 store123)))%nat.
Proof.
  exact (sync_never_removes_an_id sampleConfig sampleDate sampleFloat
           feed13 store123 keyed_store123).
Defined.

Lemma sync_stores_the_last_occurrence_witness :
  realm (refresh sampleConfig sampleDate sampleFloat feedTwice store123) !! 1
  = Some (put (taskValues sampleConfig sampleDate sampleFloat
                 (sampleIssue 1 (Some bodyCRLF) None))
              (store123 !! 1))
  /\ realm (refresh sampleConfig sampleDate sampleFloat feedTwice store123) !! 2
     = Task.set_isDeleted true <$> store123 !! 2.
Proof.
  destruct (sync_stores_the_last_occurrence sampleConfig sampleDate sampleFloat
              feedTwice store123 keyed_store123) as [Hlast Hother].
  split.
  - apply (Hlast [closedIssue 1] (sampleIssue 1 (Some bodyCRLF) None) []);
      [reflexivity | intros []].
  - apply (Hother 2). cbn. intuition lia.
Defined.

Lemma sync_of_empty_feed_marks_everything_witness :
  realm (refresh sampleConfig sampleDate sampleFloat feedEmpty store123) !! 1
  = Task.set_isDeleted true <$> store123 !! 1
  /\ getTaskChartData sampleFormat
       (realm (refresh sampleConfig sampleDate sampleFloat feedEmpty store123))
     = [].
Proof.
  destruct (sync_of_empty_feed_marks_everything sampleConfig sampleDate sampleFloat
              sampleFormat feedEmpty store123 keyed_store123 eq_refl eq_refl)
    as [Hall Hchart].
  split; [apply Hall | exact Hchart].
Defined.

Lemma sync_keeps_the_table_well_formed_witness :
  Realm.keyed (realm (refresh sampleConfig sampleDate sampleFloat feed13 ∅))
  /\ Realm.plain (realm (refresh sampleConfig sampleDate sampleFloat feed13 ∅)).
Proof.
  destruct (sync_keeps_the_table_well_formed sampleConfig sampleDate sampleFloat
              feed13 ∅ keyed_empty) as [Hk Hp].
  split; [exact Hk|]. apply Hp. intros k task. now rewrite lookup_empty.
Defined.

Lemma getIssueURL_after_sync_witness :
  getIssueURL 3 (realm (refresh sampleConfig sampleDate sampleFloat feed13 store123))
  = Normal "https://github.com/o/r/issues/7"
  /\ getIssueURL 2 (realm (refresh sampleConfig sampleDate sampleFloat feed13 store123))
     = Normal "https://github.com/o/r/issues/0".
Proof.
  destruct (getIssueURL_after_sync sampleConfig sampleDate sampleFloat
              feed13 store123 keyed_store123) as [Hseen Hother].
  split.
  - apply (Hseen 3 (sampleIssue 3 (Some bodyCRLF) None)). reflexivity.
  - apply (Hother 2 (sampleTask 2 false None)); [|reflexivity].
    cbn. intuition lia.
Defined.

Lemma refreshData_answers_when_all_pages_arrive_witness :
  fst (refreshData sampleConfig sampleDate sampleFloat sampleFormat
         (Some feedBroken) store123)
  = None
  /\ fst (refreshData sampleConfig sampleDate sampleFloat sampleFormat
            (Some feed13) store123)
     = Some (getTaskChartData sampleFormat
               (realm (refresh sampleConfig sampleDate sampleFloat feed13 store123))).
Proof.
  split.
  - exact (f_equal fst
             (proj1 (proj2 (refreshData_answers_when_all_pages_arrive
                              sampleConfig sampleDate sampleFloat sampleFormat
                              feedBroken store123 keyed_store123)))).
  - exact (f_equal fst
             (proj1 (proj2 (refreshData_answers_when_all_pages_arrive
                              sampleConfig sampleDate sampleFloat sampleFormat
                              feed13 store123 keyed_store123)))).
Defined.

Lemma chart_after_sync_shows_open_dated_issues_witness :
  In 1 (List.map ChartRow.id
          (getTaskChartData sampleFormat
             (realm (refresh sampleConfig sampleDate sampleFloat feedTwice store123))))
  /\ completes feedTwice = true.
Proof.
  split; [|reflexivity].
  apply (chart_after_sync_shows_open_dated_issues sampleConfig sampleDate sampleFloat
           sampleFormat feedTwice store123 keyed_store123 eq_refl 1).
  exists (sampleIssue 1 (Some bodyCRLF) None).
  split; [reflexivity | split; [reflexivity | vm_compute; discriminate]].
Defined.

Lemma chart_rows_are_the_chart_tasks_witness :
  List.map ChartRow.id (getTaskChartData sampleFormat chartStore)
  = List.map Task.id (chartTasks chartStore)
  /\ List.NoDup (List.map ChartRow.id (getTaskChartData sampleFormat chartStore)).
Proof.
  destruct (chart_rows_are_the_chart_tasks sampleFormat chartStore keyed_chartStore)
    as (Hids & Hnd & _).
  split; [exact Hids | exact Hnd].
Defined.

Lemma first_upsert_creates_the_task_witness :
  size (realm (fst (processIssue sampleConfig sampleDate sampleFloat
                      (mkRun store123 [], [])
                      (sampleIssue 5 None None))))
  = S (size store123)
  /\ realm (fst (processIssue sampleConfig sampleDate sampleFloat
                   (mkRun store123 [], [])
                   (sampleIssue 5 None None))) !! 5
     = Some (Realm.fresh (taskValues sampleConfig sampleDate sampleFloat
                            (sampleIssue 5 None None))).
Proof.
  destruct (first_upsert_creates_the_task sampleConfig sampleDate sampleFloat
              (sampleIssue 5 None None) (mkRun store123 []) [] eq_refl)
    as (Hsize & Hget & _).
  split; [exact Hsize | exact Hget].
Defined.

Lemma sync_does_not_depend_on_order_or_paging_witness :
  realm (refresh sampleConfig sampleDate sampleFloat feed13 store123)
  = realm (refresh sampleConfig sampleDate sampleFloat
             (LastPage [sampleIssue 3 (Some bodyCRLF) None; sampleIssue 1 None None])
             store123).
Proof.
  apply (sync_does_not_depend_on_order_or_paging sampleConfig sampleDate sampleFloat
           feed13
           (LastPage [sampleIssue 3 (Some bodyCRLF) None; sampleIssue 1 None None])
           store123 keyed_store123).
  - cbn. repeat constructor; cbn; intuition lia.
  - apply perm_swap.
  - reflexivity.
Defined.

Lemma markDeleted_depends_on_the_listed_ids_only_witness :
  exists r',
    Realm.write (markDeleted [1; 2]) store123 = (Normal tt, r')
    /\ Realm.write (markDeleted [2; 1; 1]) store123 = (Normal tt, r')
    /\ Realm.write (markDeleted [1; 2]) r' = (Normal tt, r').
Proof.
  apply (markDeleted_depends_on_the_listed_ids_only [1; 2] [2; 1; 1] store123).
  - intros k [<-|[<-|[]]]; vm_compute; eauto.
  - intros k. cbn. intuition lia.
Defined.
